(** * Photobook: helper functions of [photobook/function.py]

    A shallow embedding of the action-token helpers ([generate_token],
    [validate_token]), the safe-redirect helpers ([is_safe_url],
    [redirect_back]), the notification helpers ([push_*_notification]) and
    the authorization gates ([Guest], [permission_required],
    [admin_required]), together with the properties the specification
    states about them.

    The Python code leans on three external libraries.  They are modelled
    as follows.
    - itsdangerous' [TimedJSONWebSignatureSerializer]: a token is the
      triple (header, payload, signature); the header carries the issue
      time [iat] and the expiry time [exp = iat + expires_in]; the
      keyed signature function itself is a parameter ([sign]).  The
      constructor replaces an omitted [expires_in] by the library constant
      [DEFAULT_EXPIRES_IN = 3600]; [loads] first checks the signature and
      then raises [SignatureExpired] when [exp < now].
    - SQLAlchemy's session: the objects of the session, the committed rows,
      the objects added but not yet committed, and a commit operation that
      writes the former into the latter.
    - Flask / urllib ([url_for], [urlparse], [urljoin]) and werkzeug
      ([generate_password_hash]): parameters. *)

From stdpp Require Import gmap strings list fin_maps pretty.
From Stdlib Require Import ZArith Lia.

Local Open Scope Z_scope.

(** ** Python values and dictionaries *)

(** The JSON values a token payload carries. [VNone] is Python's [None]. *)
Inductive value : Type :=
| VNone
| VInt (n : Z)
| VStr (s : string).

#[global] Instance value_eq_dec : EqDecision value.
Proof. solve_decision. Defined.

(** [d.get(k)]: the value under [k], [None] when the key is absent. *)
Definition dict_get (d : gmap string value) (k : string) : value :=
  default VNone (d !! k).

(** [d.update] with keyword arguments [kwargs]: the entries of [kwargs]
    replace those of [d]. *)
Definition dict_update (d kwargs : gmap string value) : gmap string value :=
  kwargs ∪ d.

(** [x is None] *)
Definition is_None (v : value) : bool :=
  match v with VNone => true | _ => false end.

(** ** Exceptions and results *)

Inductive exn : Type :=
| BadSignature
| SignatureExpired
| HTTPException (code : Z)
| OtherError (name : string).

Inductive result (A : Type) : Type :=
| Return (a : A)
| Raise (e : exn).
Arguments Return {A} a.
Arguments Raise {A} e.

(** ** The data model *)

(** Modelled from the spec: the [User] class of [photobook/models.py] is not
    among the sources.  The User Directory of the specification holds, per
    user, an id, an email, a confirmation flag and a password hash; the
    notification helpers read [username].  [email] holds a Python value
    since [validate_token] assigns it the payload entry as it is. *)
Record User : Type := mkUser {
  user_id : Z;
  username : string;
  email : value;
  password_hash : string;
  confirmed : bool
}.

#[global] Instance User_eq_dec : EqDecision User.
Proof. solve_decision. Defined.

(** Modelled from the spec: the [Notification] class of
    [photobook/models.py] is not among the sources.  The specification
    gives the Notification Store records a message, the receiver and
    [isRead = false] at creation (the creation time, which no helper
    reads, is left out); [Notification(message=..., receiver=...)] builds
    such a record. *)
Record NotificationRow : Type := mkNotification {
  message : string;
  receiver_id : Z;
  is_read : bool
}.

Definition Notification (message : string) (receiver : User) : NotificationRow :=
  {| message := message; receiver_id := user_id receiver; is_read := false |}.

(** ** The database session ([db.session])

    [users] is what the session sees: the attached user objects with
    their current attributes, committed or not.  [stored_users] and
    [notifications] are the committed rows.  [pending] are the objects
    added by [db.session.add] and not yet committed.  [commits] counts
    the calls of [db.session.commit]. *)
Record Db : Type := mkDb {
  users : gmap Z User;
  stored_users : gmap Z User;
  pending : list NotificationRow;
  notifications : list NotificationRow;
  commits : nat
}.

(** Computations of the helpers: they read and change the session and
    either return or raise. *)
Definition M (A : Type) : Type := Db -> Db * result A.

Definition ret {A} (a : A) : M A := fun db => (db, Return a).
Definition raise {A} (e : exn) : M A := fun db => (db, Raise e).
Definition bind {A B} (m : M A) (k : A -> M B) : M B :=
  fun db => match m db with
            | (db', Return a) => k a db'
            | (db', Raise e) => (db', Raise e)
            end.

Notation "'do' x <- m ; k" := (bind m (fun x => k))
  (at level 10, x name, m at level 100, k at level 200).
Notation "'exec' m ; k" := (bind m (fun _ => k))
  (at level 10, m at level 100, k at level 200).

(** [obj.attr = v] on an attached user object: the session sees the new
    attributes under the object's id, the committed rows do not yet. *)
Definition update_user (db : Db) (u : User) : Db :=
  mkDb (<[user_id u := u]> (users db)) (stored_users db)
       (pending db) (notifications db) (commits db).

Definition store_user (u : User) : M unit :=
  fun db => (update_user db u, Return tt).

(** [db.session.add(notification)] *)
Definition session_add (n : NotificationRow) : M unit :=
  fun db => (mkDb (users db) (stored_users db) (pending db ++ [n])
                  (notifications db) (commits db), Return tt).

(** [db.session.commit()]: every change of the session becomes a
    committed row. *)
Definition commit (db : Db) : Db :=
  mkDb (users db) (users db) [] (notifications db ++ pending db)
       (S (commits db)).

Definition session_commit : M unit := fun db => (commit db, Return tt).

(** [User.query.filter_by(email=e)] and [.first()]. *)
Definition query_filter_by_email (e : value) : M (list User) :=
  fun db => (db, Return (filter (fun u => email u = e)
                                (snd <$> map_to_list (users db)))).

Definition first {A} (rows : list A) : option A := head rows.

Definition set_confirmed (u : User) (b : bool) : User :=
  mkUser (user_id u) (username u) (email u) (password_hash u) b.
Definition set_email (u : User) (e : value) : User :=
  mkUser (user_id u) (username u) e (password_hash u) (confirmed u).
Definition set_password_hash (u : User) (h : string) : User :=
  mkUser (user_id u) (username u) (email u) h (confirmed u).

(** ** Signed, timed tokens *)

Record Header : Type := mkHeader { iat : Z; exp : Z }.

(** A token string either decodes to a header, a payload and a signature,
    or is not of that form at all. *)
Inductive Token : Type :=
| Signed (header : Header) (payload : gmap string value) (signature : string)
| Malformed (raw : string).

Record TimedSerializer : Type := mkSerializer {
  secret_key : string;
  expires_in : Z
}.

Definition DEFAULT_EXPIRES_IN : Z := 3600.

(** The operations, [class Operations]. *)
Module Operations.
Definition CONFIRM : string := "confirm".
Definition RESET_PASSWORD : string := "reset-password".
Definition CHANGE_EMAIL : string := "change-email".
End Operations.

(** The result of a redirect: the location the response points to. *)
Inductive Response : Type :=
| Redirect (location : string).

Record ParseResult : Type := mkParseResult {
  scheme : string;
  netloc : string
}.

(** The part of a Flask request the helpers read: [request.host_url],
    the query arguments [request.args] in order, [request.referrer]. *)
Record Request : Type := mkRequest {
  host_url : string;
  args : list (string * string);
  referrer : option string
}.

(** [request.args.get(k)]: the first value under [k], or [None]. *)
Fixpoint args_get (a : list (string * string)) (k : string) : option string :=
  match a with
  | [] => None
  | (k', v) :: rest => if String.eqb k k' then Some v else args_get rest k
  end.

(** Truth value of an optional string: [None] and the empty string are
    false. *)
Definition truthy (target : option string) : bool :=
  match target with
  | None => false
  | Some s => negb (String.eqb s EmptyString)
  end.

(** The double quote character of the notification messages. *)
Definition dquote : string := String (Ascii.ascii_of_nat 34%nat) EmptyString.

(** ** What the helpers take from their environment

    [SECRET_KEY] is [current_app.config['SECRET_KEY']]; [sign] is the
    keyed signature the serializer computes over a header and a payload;
    [generate_password_hash] is werkzeug's (it may raise); [url_for],
    [urlparse] and [urljoin] are Flask's and urllib's. *)
Class Externals : Type := {
  SECRET_KEY : string;
  sign : string -> Header -> gmap string value -> string;
  generate_password_hash : option string -> result string;
  url_for : string -> list (string * value) -> string;
  urlparse : string -> ParseResult;
  urljoin : string -> string -> string
}.

(** What the gates ask of [current_user]. *)
Class Identity (U : Type) : Type := {
  can : U -> string -> bool;
  is_admin : U -> bool
}.

(** [class Guest(AnonymousUserMixin)] *)
Inductive Guest : Type := mkGuest.

#[global] Instance Guest_Identity : Identity Guest := {
  can := fun _ _ => false;
  is_admin := fun _ => false
}.

Section Code.
Context `{Externals}.

(** *** itsdangerous: [TimedJSONWebSignatureSerializer] *)

Definition Serializer (key : string) (expire_in : option Z) : TimedSerializer :=
  mkSerializer key (default DEFAULT_EXPIRES_IN expire_in).

Definition dumps (s : TimedSerializer) (now : Z) (data : gmap string value) : Token :=
  let header := mkHeader now (now + expires_in s) in
  Signed header data (sign (secret_key s) header data).

Definition loads (s : TimedSerializer) (now : Z) (token : Token)
  : result (gmap string value) :=
  match token with
  | Malformed _ => Raise BadSignature
  | Signed header payload signature =>
      if negb (String.eqb signature (sign (secret_key s) header payload))
      then Raise BadSignature
      else if exp header <? now then Raise SignatureExpired
      else Return payload
  end.

(** *** [generate_token] (function.py, lines 63-68)

    [now] is the clock the serializer reads.  Python refuses keyword
    arguments named [user], [operation] or [expire_in] at the call, so a
    [kwargs] of the source never has the key ["operation"]. *)
Definition generate_token (now : Z) (user : User) (operation : string)
    (expire_in : option Z) (kwargs : gmap string value) : Token :=
  let s := Serializer SECRET_KEY expire_in in
  let data : gmap string value :=
    <["id" := VInt (user_id user)]> {["operation" := VStr operation]} in
  let data := dict_update data kwargs in
  dumps s now data.

(** Modelled from the spec: [User.set_password] of [photobook/models.py] is
    not among the sources; the specification has it set the user's
    password to the hash derived from the given value. *)
Definition set_password (user : User) (password : option string) : M unit :=
  match generate_password_hash password with
  | Return h => store_user (set_password_hash user h)
  | Raise e => raise e
  end.

(** *** [validate_token] (function.py, lines 71-97) *)
Definition validate_token (now : Z) (user : User) (token : Token)
    (operation : string) (new_password : option string) : M bool :=
  let s := Serializer SECRET_KEY None in
  match loads s now token with
  | Raise SignatureExpired | Raise BadSignature => ret false
  | Raise e => raise e
  | Return data =>
      if bool_decide (VStr operation ≠ dict_get data "operation")
         || bool_decide (VInt (user_id user) ≠ dict_get data "id")
      then ret false
      else if String.eqb operation Operations.CONFIRM then
        exec store_user (set_confirmed user true);
        exec session_commit;
        ret true
      else if String.eqb operation Operations.RESET_PASSWORD then
        exec set_password user new_password;
        exec session_commit;
        ret true
      else if String.eqb operation Operations.CHANGE_EMAIL then
        let new_email := dict_get data "new_email" in
        if is_None new_email then ret false
        else
          do rows <- query_filter_by_email new_email;
          if bool_decide (first rows ≠ None) then ret false
          else
            exec store_user (set_email user new_email);
            exec session_commit;
            ret true
      else ret false
  end.

(** *** [is_safe_url] and [redirect_back] (function.py, lines 99-112) *)
Definition is_safe_url (request : Request) (target : string) : bool :=
  let ref_url := urlparse (host_url request) in
  let test_url := urlparse (urljoin (host_url request) target) in
  bool_decide (scheme test_url ∈ ["http"; "https"])
  && bool_decide (netloc ref_url = netloc test_url).

(** The [for target in ...] loop: [continue] on a false target, return
    on the first safe one, fall through to [default_url] at the end. *)
Fixpoint redirect_back_loop (request : Request) (targets : list (option string))
    (default_url : string) : Response :=
  match targets with
  | [] => Redirect default_url
  | target :: rest =>
      if negb (truthy target) then redirect_back_loop request rest default_url
      else match target with
           | Some t =>
               if is_safe_url request t then Redirect t
               else redirect_back_loop request rest default_url
           | None => redirect_back_loop request rest default_url
           end
  end.

(** [default] is the optional argument, ['main.index'] when omitted. *)
Definition redirect_back (request : Request) (default : option string)
    (kwargs : list (string * value)) : Response :=
  let default := from_option id "main.index" default in
  redirect_back_loop request
    [args_get (args request) "next"; referrer request]
    (url_for default kwargs).

(** *** The notification helpers (function.py, lines 124-147) *)
Definition push_follow_notification (follower receiver : User) : M unit :=
  let message :=
    "User <a href=" +:+ dquote
      +:+ url_for "user.index" [("username", VStr (username follower))]
      +:+ dquote +:+ ">" +:+ username follower +:+ "</a> followed you." in
  let notification := Notification message receiver in
  exec session_add notification;
  session_commit.

Definition push_comment_notification (photo_id : Z) (receiver : User)
    (page : option Z) : M unit :=
  let page := default 1 page in
  let message :=
    "<a href=" +:+ dquote
      +:+ url_for "main.show_photo" [("photo_id", VInt photo_id); ("page", VInt page)]
      +:+ "#comments" +:+ dquote +:+ ">This photo</a> has new comment/reply." in
  let notification := Notification message receiver in
  exec session_add notification;
  session_commit.

Definition push_collect_notification (collector : User) (photo_id : Z)
    (receiver : User) : M unit :=
  let message :=
    "User <a href=" +:+ dquote
      +:+ url_for "user.index" [("username", VStr (username collector))]
      +:+ dquote +:+ ">" +:+ username collector +:+ "</a> collected your <a href="
      +:+ dquote +:+ url_for "main.show_photo" [("photo_id", VInt photo_id)]
      +:+ dquote +:+ ">photo</a>" in
  let notification := Notification message receiver in
  exec session_add notification;
  session_commit.

(** *** The gates (function.py, lines 165-177)

    [abort(403)] raises; otherwise the view function runs. *)
Definition permission_required {U} `{Identity U} {A R : Type}
    (current_user : U) (permission_name : string)
    (func : A -> result R) : A -> result R :=
  fun args =>
    if negb (can current_user permission_name) then Raise (HTTPException 403)
    else func args.

Definition admin_required {U} `{Identity U} {A R : Type}
    (current_user : U) (func : A -> result R) : A -> result R :=
  permission_required current_user "ADMINISTER" func.

End Code.

(** ** The specification's side of the claims *)

Section Specification.
Context `{Externals}.

(** The payload entries a token was minted with. *)
Definition token_payload (token : Token) : gmap string value :=
  match token with
  | Signed _ payload _ => payload
  | Malformed _ => ∅
  end.

Definition minted_operation (token : Token) : value :=
  dict_get (token_payload token) "operation".

Definition minted_subject (token : Token) : value :=
  dict_get (token_payload token) "id".

(** Some user of the directory owns the email [e]. *)
Definition email_taken (db : Db) (e : value) : Prop :=
  ∃ i other, users db !! i = Some other ∧ email other = e.




(** The events that notify a receiver, and the message each one is to
    leave in the Notification Store. *)
Inductive Event : Type :=
| Followed (follower : User)
| Commented (photo_id : Z) (page : option Z)
| Collected (collector : User) (photo_id : Z).

Definition push (receiver : User) (ev : Event) : M unit :=
  match ev with
  | Followed follower => push_follow_notification follower receiver
  | Commented photo_id page => push_comment_notification photo_id receiver page
  | Collected collector photo_id =>
      push_collect_notification collector photo_id receiver
  end.

Fixpoint push_all (receiver : User) (evs : list Event) : M unit :=
  match evs with
  | [] => ret tt
  | ev :: rest => exec push receiver ev; push_all receiver rest
  end.

Definition event_message (ev : Event) : string :=
  match ev with
  | Followed follower =>
      "User <a href=" +:+ dquote
        +:+ url_for "user.index" [("username", VStr (username follower))]
        +:+ dquote +:+ ">" +:+ username follower +:+ "</a> followed you."
  | Commented photo_id page =>
      "<a href=" +:+ dquote
        +:+ url_for "main.show_photo"
              [("photo_id", VInt photo_id); ("page", VInt (default 1 page))]
        +:+ "#comments" +:+ dquote
        +:+ ">This photo</a> has new comment/reply."
  | Collected collector photo_id =>
      "User <a href=" +:+ dquote
        +:+ url_for "user.index" [("username", VStr (username collector))]
        +:+ dquote +:+ ">" +:+ username collector
        +:+ "</a> collected your <a href=" +:+ dquote
        +:+ url_for "main.show_photo" [("photo_id", VInt photo_id)]
        +:+ dquote +:+ ">photo</a>"
  end.

Definition event_record (receiver : User) (ev : Event) : NotificationRow :=
  mkNotification (event_message ev) (user_id receiver) false.

End Specification.

(** ** A concrete environment and directory, for the examples *)

Module Example.

Definition sign_ (key : string) (h : Header) (p : gmap string value) : string :=
  key +:+ "." +:+ pretty (iat h) +:+ "." +:+ pretty (exp h)
      +:+ "." +:+ pretty (size p).

Definition hash_ (password : option string) : result string :=
  match password with
  | Some p => Return ("hash$" +:+ p)
  | None => Raise (OtherError "TypeError")
  end.

(** Text up to the first slash. *)
Fixpoint until_slash (s : string) : string :=
  match s with
  | EmptyString => EmptyString
  | String c rest =>
      if Ascii.eqb c (Ascii.ascii_of_nat 47%nat) then EmptyString else String c (until_slash rest)
  end.

Definition urlparse_ (url : string) : ParseResult :=
  if String.prefix "http://" url
  then mkParseResult "http" (until_slash (String.substring 7 (String.length url) url))
  else if String.prefix "https://" url
  then mkParseResult "https" (until_slash (String.substring 8 (String.length url) url))
  else if String.prefix "ftp://" url
  then mkParseResult "ftp" (until_slash (String.substring 6 (String.length url) url))
  else mkParseResult EmptyString EmptyString.

Definition urljoin_ (base url : string) : string :=
  if String.eqb (scheme (urlparse_ url)) EmptyString then base +:+ url else url.

Definition env : Externals := {|
  SECRET_KEY := "secret string";
  sign := sign_;
  generate_password_hash := hash_;
  url_for := fun endpoint _ => "/" +:+ endpoint;
  urlparse := urlparse_;
  urljoin := urljoin_
|}.

Definition alice : User := mkUser 1 "alice" (VStr "alice@example.com") "h1" false.
Definition bob : User := mkUser 2 "bob" (VStr "bob@example.com") "h2" true.

Definition db0 : Db :=
  let us : gmap Z User := <[1 := alice]> {[2 := bob]} in
  mkDb us us [] [] 0.

End Example.

(** ** The other helpers of [function.py] and the template context of
    [__init__.py] *)

(** Flask's flashed messages, oldest first: [flash(message, category)]
    appends the pair (category, message). *)
Definition flash (message category : string)
    (flashes : list (string * string)) : list (string * string) :=
  flashes ++ [(category, message)].

(** A form as [flash_errors] reads it: [form.errors.items()] in order, and
    [getattr(form, field).label.text]. *)
Record Form : Type := mkForm {
  form_errors : list (string * list string);
  label_text : string -> string
}.

(** A PIL image, by its [size]. *)
Record Image : Type := mkImage {
  width : Z;
  height : Z
}.

(** A flask_mail [Message]. *)
Record Message : Type := mkMessage {
  subject : string;
  recipients : list value;
  body : string;
  html : string
}.

(** The keyword arguments the mail helpers hand to the templates. *)
Inductive TemplateArg : Type :=
| TUser (u : User)
| TToken (t : Token).

(** [current_user]: a logged-in [User] or the anonymous [Guest]. *)
Inductive CurrentUser : Type :=
| Authenticated (u : User)
| Anonymous (g : Guest).

(** [UserMixin.is_authenticated] is [True],
    [AnonymousUserMixin.is_authenticated] is [False]. *)
Definition is_authenticated (c : CurrentUser) : bool :=
  match c with
  | Authenticated _ => true
  | Anonymous _ => false
  end.

(** What these helpers take from their environment: [os.path.splitext],
    [os.path.join], the floating-point computation of the new height
    [int(float(h) * (base_width / float(w)))], PIL's [Image.open],
    [Image.resize] and [Image.save] (each may raise; what a save does to
    the files on disk, on success and on failure, is PIL's), the directory
    [basedir] of [__init__.py], and Flask's [render_template]. *)
Class Runtime : Type := {
  splitext : string -> string * string;
  path_join : string -> string -> string;
  scale_height : Z -> Z -> Z -> Z;
  image_open : string -> result Image;
  image_resize : Image -> Z -> Z -> result Image;
  image_save :
    string -> Image -> gmap string Image -> gmap string Image * result unit;
  basedir : string;
  render_template : string -> list (string * TemplateArg) -> string
}.

(** [BaseConfig] ([__init__.py], lines 44-51) *)
Definition PHOTOBOOK_MAIL_SUBJECT_PREFIX : string := "[PHOTOBOOK]".

Definition PHOTOBOOK_PHOTO_SIZE : gmap string Z :=
  <["small" := 400]> {["medium" := 800]}.

Definition PHOTOBOOK_PHOTO_SUFFIX : gmap Z string :=
  <[PHOTOBOOK_PHOTO_SIZE !!! "small" := "_s"]>
    {[PHOTOBOOK_PHOTO_SIZE !!! "medium" := "_m"]}.

Section MoreCode.
Context `{Externals} `{Runtime}.

Definition PHOTOBOOK_UPLOAD_PATH : string := path_join basedir "uploads".

(** *** [flash_errors] (function.py, lines 115-121) *)
Fixpoint flash_field_errors (label : string) (errors : list string)
    (flashes : list (string * string)) : list (string * string) :=
  match errors with
  | [] => flashes
  | error :: rest =>
      flash_field_errors label rest
        (flash ("Error in the " +:+ label +:+ " field - " +:+ error)
               "message" flashes)
  end.

Fixpoint flash_errors_items (form : Form) (items : list (string * list string))
    (flashes : list (string * string)) : list (string * string) :=
  match items with
  | [] => flashes
  | (field, errors) :: rest =>
      flash_errors_items form rest
        (flash_field_errors (label_text form field) errors flashes)
  end.

Definition flash_errors (form : Form)
    (flashes : list (string * string)) : list (string * string) :=
  flash_errors_items form (form_errors form) flashes.

(** *** [confirm_required] (function.py, lines 150-162)

    The decorated function either answers with the redirect of the
    decorator ([inl]) or with what the view function answers ([inr]). *)
Definition confirm_required {A R : Type} (current_user : User)
    (func : A -> result R)
  : A -> list (string * string) -> list (string * string) * result (Response + R) :=
  fun args flashes =>
    if negb (confirmed current_user) then
      let message :=
        "Please confirm your account first."
          +:+ "Not receive the email?"
          +:+ "<a class=" +:+ dquote +:+ "alert-link" +:+ dquote
          +:+ " href=" +:+ dquote +:+ url_for "auth.resend_confirm_email" []
          +:+ dquote +:+ ">Resend Confirm Email</a>" in
      (flash message "warning" flashes,
       Return (inl (Redirect (url_for "main.index" []))))
    else
      (flashes,
       match func args with
       | Return r => Return (inr r)
       | Raise e => Raise e
       end).

(** *** [resize_image] (function.py, lines 186-197)

    [files] are the image files on disk, by path; [img.save] is the one
    call that touches them, and it may raise.  The division
    [base_width / float(img.size[0])] raises on a zero width. *)
Definition resize_image (image : string) (filename : string) (base_width : Z)
    (files : gmap string Image) : gmap string Image * result string :=
  let '(filename, ext) := splitext filename in
  match image_open image with
  | Raise e => (files, Raise e)
  | Return img =>
      if width img <=? base_width then (files, Return (filename +:+ ext))
      else if width img =? 0 then (files, Raise (OtherError "ZeroDivisionError"))
      else
        let h_size := scale_height (height img) base_width (width img) in
        match image_resize img base_width h_size with
        | Raise e => (files, Raise e)
        | Return img =>
            match PHOTOBOOK_PHOTO_SUFFIX !! base_width with
            | None => (files, Raise (OtherError "KeyError"))
            | Some suffix =>
                let filename := filename +:+ (suffix +:+ ext) in
                match image_save (path_join PHOTOBOOK_UPLOAD_PATH filename)
                                 img files with
                | (files', Return _) => (files', Return filename)
                | (files', Raise e) => (files', Raise e)
                end
            end
        end
  end.

(** *** The mail helpers (function.py, lines 201-225)

    [threads] are the messages handed to a started background thread,
    each of which [_send_async_mail] sends; [send_mail] returns the
    thread it started. *)
Definition send_mail (to : value) (subject_ template : string)
    (kwargs : list (string * TemplateArg))
    (threads : list Message) : list Message * Message :=
  let message :=
    mkMessage (PHOTOBOOK_MAIL_SUBJECT_PREFIX +:+ subject_) [to]
              (render_template (template +:+ ".txt") kwargs)
              (render_template (template +:+ ".html") kwargs) in
  (threads ++ [message], message).

(** [to or user.email] *)
Definition to_or_email (to : option string) (user : User) : value :=
  match to with
  | Some t => if truthy to then VStr t else email user
  | None => email user
  end.

Definition send_confirm_email (user : User) (token : Token)
    (to : option string) (threads : list Message) : list Message :=
  fst (send_mail (to_or_email to user) "Email Confirm" "emails/confirm"
         [("user", TUser user); ("token", TToken token)] threads).

Definition send_reset_password_email (user : User) (token : Token)
    (threads : list Message) : list Message :=
  fst (send_mail (email user) "Password Reset" "emails/reset_password"
         [("user", TUser user); ("token", TToken token)] threads).

Definition send_change_email_email (user : User) (token : Token)
    (to : option string) (threads : list Message) : list Message :=
  fst (send_mail (to_or_email to user) "Change Email Confirm"
         "emails/change_email"
         [("user", TUser user); ("token", TToken token)] threads).

(** *** [make_template_context] ([__init__.py], lines 148-155)

    The query counts the unread notifications of the user among the rows
    the session sees: the committed ones and, flushed before the query
    runs, the added ones. *)
Definition unread_of (user : User) (rows : list NotificationRow)
  : list NotificationRow :=
  filter (fun n => receiver_id n = user_id user ∧ is_read n = false) rows.

Definition make_template_context (current_user : CurrentUser) (db : Db)
  : gmap string value :=
  let notification_count :=
    if is_authenticated current_user then
      match current_user with
      | Authenticated u =>
          VInt (Z.of_nat (length (unread_of u (notifications db ++ pending db))))
      | Anonymous _ => VNone
      end
    else VNone in
  {["notification_count" := notification_count]}.

End MoreCode.

(** Properties of the session a request handler relies on. *)

(** Every user object sits under its own id. *)
Definition keyed_by_id (db : Db) : Prop :=
  ∀ i u, users db !! i = Some u → user_id u = i.

(** No two users of the directory have the same email. *)
Definition emails_unique (db : Db) : Prop :=
  ∀ i j u v, users db !! i = Some u → users db !! j = Some v →
             email u = email v → i = j.

(** A concrete runtime, for the examples. *)
Module Fixture.

Fixpoint splitext_ (s : string) : string * string :=
  match s with
  | EmptyString => (EmptyString, EmptyString)
  | String c rest =>
      let '(root, ext) := splitext_ rest in
      match ext with
      | String _ _ => (String c root, ext)
      | EmptyString =>
          if Ascii.eqb c (Ascii.ascii_of_nat 46%nat)
          then (EmptyString, String c rest)
          else (String c root, EmptyString)
      end
  end.

Definition image_open_ (image : string) : result Image :=
  if String.eqb image "wide.jpg" then Return (mkImage 1600 1200)
  else if String.eqb image "small.jpg" then Return (mkImage 320 240)
  else Raise (OtherError "UnidentifiedImageError").

Definition image_resize_ (img : Image) (w h : Z) : result Image :=
  if (0 <? w) && (0 <? h) then Return (mkImage w h)
  else Raise (OtherError "ValueError").

(** Saving succeeds for a file name with extension [.jpg] or [.png]. *)
Definition image_save_ (path : string) (img : Image)
    (files : gmap string Image) : gmap string Image * result unit :=
  if String.eqb (snd (splitext_ path)) ".jpg"
     || String.eqb (snd (splitext_ path)) ".png"
  then (<[path := img]> files, Return tt)
  else (files, Raise (OtherError "ValueError")).

Definition runtime : Runtime := {|
  splitext := splitext_;
  path_join := fun a b => a +:+ "/" +:+ b;
  scale_height := fun h base_width w => h * base_width / w;
  image_open := image_open_;
  image_resize := image_resize_;
  image_save := image_save_;
  basedir := "/srv/photobook";
  render_template := fun name _ => name
|}.

Definition user_identity : Identity User := {|
  can := fun u permission_name =>
    String.eqb permission_name "UPLOAD" && confirmed u;
  is_admin := fun _ => false
|}.

Definition login_form : Form :=
  mkForm [("email", ["Invalid email."; "Too long."]); ("password", ["Required."])]
         (fun field => if String.eqb field "email" then "Email" else "Password").

End Fixture.

(** ** Properties *)

Section Properties.
Context `{Externals}.

(** *** The serializer *)

Lemma loads_raises s now token e :
  loads s now token = Raise e → e = BadSignature ∨ e = SignatureExpired.
Proof.
  destruct token as [header payload signature | raw]; simpl.
  - destruct (negb _); [intros [= <-]; by left |].
    destruct (exp header <? now); [intros [= <-]; by right | discriminate].
  - intros [= <-]. by left.
Qed.

Lemma loads_Return s now token data :
  loads s now token = Return data →
  token_payload token = data ∧ ∃ header signature,
    token = Signed header data signature ∧ now ≤ exp header.
Proof.
  destruct token as [header payload signature | raw]; simpl; [| discriminate].
  destruct (negb _); [discriminate |].
  destruct (Z.ltb_spec (exp header) now); [discriminate |].
  intros [= <-]. split; [done |]. eauto.
Qed.

Lemma loads_dumps key e e' now0 now data :
  loads (Serializer key e') now (dumps (Serializer key e) now0 data)
  = if now0 + default DEFAULT_EXPIRES_IN e <? now
    then Raise SignatureExpired else Return data.
Proof. unfold loads, dumps; simpl. by rewrite String.eqb_refl. Qed.

Lemma loads_generate_token now0 now user operation e kwargs e' :
  loads (Serializer SECRET_KEY e') now
        (generate_token now0 user operation e kwargs)
  = if now0 + default DEFAULT_EXPIRES_IN e <? now
    then Raise SignatureExpired
    else Return (token_payload (generate_token now0 user operation e kwargs)).
Proof. unfold generate_token. by rewrite loads_dumps. Qed.

Lemma minted_operation_generate now0 user operation e kwargs :
  kwargs !! "operation" = None →
  minted_operation (generate_token now0 user operation e kwargs) = VStr operation.
Proof.
  intros Hk. unfold minted_operation, generate_token, dumps, dict_update, dict_get.
  simpl. rewrite lookup_union_r by done.
  rewrite lookup_insert_ne by done. by rewrite lookup_singleton_eq.
Qed.

Lemma minted_subject_generate now0 user operation e kwargs :
  minted_subject (generate_token now0 user operation e kwargs)
  = default (VInt (user_id user)) (kwargs !! "id").
Proof.
  unfold minted_subject, generate_token, dumps, dict_update, dict_get. simpl.
  destruct (kwargs !! "id") as [v |] eqn:Hk.
  - by rewrite (lookup_union_Some_l _ _ _ _ Hk).
  - rewrite lookup_union_r by done. by rewrite lookup_insert_eq.
Qed.

Lemma generated_extra now0 user operation e kwargs k v :
  kwargs !! k = Some v →
  dict_get (token_payload (generate_token now0 user operation e kwargs)) k = v.
Proof.
  intros Hk. unfold generate_token, dumps, dict_update, dict_get. simpl.
  by rewrite (lookup_union_Some_l _ _ _ _ Hk).
Qed.

(** *** The email query *)

Lemma first_filter_by_email db e :
  first (filter (fun u => email u = e) (snd <$> map_to_list (users db))) ≠ None
  ↔ email_taken db e.
Proof.
  unfold first, email_taken. split.
  - intros Hne.
    destruct (filter _ _) as [| u rest] eqn:Hf; [done |].
    assert (Hin : u ∈ filter (fun u => email u = e) (snd <$> map_to_list (users db))).
    { rewrite Hf. apply list_elem_of_here. }
    apply list_elem_of_filter in Hin as [He Hin].
    apply list_elem_of_fmap in Hin as [[i u'] [-> Hin]].
    apply elem_of_map_to_list in Hin. exists i, u'. done.
  - intros (i & other & Hl & He) Hnone.
    apply head_None in Hnone.
    assert (Hout : other ∉ snd <$> map_to_list (users db)).
    { eapply filter_nil_not_elem_of; [exact Hnone | exact He]. }
    apply Hout. apply list_elem_of_fmap. exists (i, other).
    split; [done |]. by apply elem_of_map_to_list.
Qed.

(** *** [validate_token], branch by branch *)

Lemma validate_token_not_loaded now user token operation new_password db e :
  loads (Serializer SECRET_KEY None) now token = Raise e →
  validate_token now user token operation new_password db = (db, Return false).
Proof.
  intros Hl. unfold validate_token. rewrite Hl.
  by destruct (loads_raises _ _ _ _ Hl) as [-> | ->].
Qed.

Lemma validate_token_mismatch now user token operation new_password db :
  VStr operation ≠ minted_operation token
  ∨ VInt (user_id user) ≠ minted_subject token →
  validate_token now user token operation new_password db = (db, Return false).
Proof.
  intros Hm.
  destruct (loads (Serializer SECRET_KEY None) now token) as [data | e] eqn:Hl.
  - unfold validate_token. rewrite Hl.
    apply loads_Return in Hl as [<- _].
    fold (minted_operation token) (minted_subject token).
    destruct Hm as [Hm | Hm].
    + by rewrite (bool_decide_eq_true_2 _ Hm).
    + rewrite (bool_decide_eq_true_2 _ Hm). by rewrite orb_true_r.
  - by eapply validate_token_not_loaded.
Qed.

Lemma validate_token_loaded now user token operation new_password db data :
  loads (Serializer SECRET_KEY None) now token = Return data →
  dict_get data "operation" = VStr operation →
  dict_get data "id" = VInt (user_id user) →
  validate_token now user token operation new_password db
  = if String.eqb operation Operations.CONFIRM then
      (commit (update_user db (set_confirmed user true)), Return true)
    else if String.eqb operation Operations.RESET_PASSWORD then
      match generate_password_hash new_password with
      | Return h => (commit (update_user db (set_password_hash user h)), Return true)
      | Raise e => (db, Raise e)
      end
    else if String.eqb operation Operations.CHANGE_EMAIL then
      let new_email := dict_get data "new_email" in
      if is_None new_email then (db, Return false)
      else if bool_decide (first (filter (fun u => email u = new_email)
                                         (snd <$> map_to_list (users db))) ≠ None)
           then (db, Return false)
           else (commit (update_user db (set_email user new_email)), Return true)
    else (db, Return false).
Proof.
  intros Hl Hop Hid. unfold validate_token. rewrite Hl, Hop, Hid.
  rewrite !bool_decide_eq_false_2 by (intros Hne; by apply Hne). simpl.
  destruct (String.eqb operation Operations.CONFIRM); [done |].
  destruct (String.eqb operation Operations.RESET_PASSWORD).
  { unfold set_password, bind.
    by destruct (generate_password_hash new_password). }
  destruct (String.eqb operation Operations.CHANGE_EMAIL); [| done].
  destruct (is_None _); [done |].
  unfold bind, query_filter_by_email. by case_bool_decide.
Qed.

(** *** Round trip and expiry *)

(** C1 (amended): a token issued by [generate_token] at time [now0] with
    time-to-live [ttl], whose extra payload overrides neither the id nor
    the operation, and presented for the same user and operation, is
    refused at every time later than [now0 + ttl]; up to and including
    [now0 + ttl] validation succeeds and commits the mutation, for
    Confirm always, for ResetPassword when the new password hashes, for
    ChangeEmail when the payload carries a new email no user owns. *)
Theorem validate_generated_token_window
    now0 now user operation ttl kwargs new_password db :
  kwargs !! "id" = None →
  kwargs !! "operation" = None →
  let token := generate_token now0 user operation (Some ttl) kwargs in
  let outcome := validate_token now user token operation new_password db in
  (now0 + ttl < now → outcome = (db, Return false))
  ∧ (now ≤ now0 + ttl →
     (operation = Operations.CONFIRM →
      outcome = (commit (update_user db (set_confirmed user true)), Return true))
     ∧ (operation = Operations.RESET_PASSWORD →
        ∀ h, generate_password_hash new_password = Return h →
        outcome = (commit (update_user db (set_password_hash user h)), Return true))
     ∧ (operation = Operations.CHANGE_EMAIL →
        ∀ e, kwargs !! "new_email" = Some e → e ≠ VNone → ¬ email_taken db e →
        outcome = (commit (update_user db (set_email user e)), Return true))).
Proof.
  intros Hid Hop token outcome. subst outcome. split.
  - intros Hlate. eapply validate_token_not_loaded.
    subst token. rewrite loads_generate_token. simpl.
    destruct (Z.ltb_spec (now0 + ttl) now); [done | lia].
  - intros Hin.
    assert (Hl : loads (Serializer SECRET_KEY None) now token
                 = Return (token_payload token)).
    { subst token. rewrite loads_generate_token. simpl.
      destruct (Z.ltb_spec (now0 + ttl) now); [lia | done]. }
    pose proof (minted_operation_generate now0 user operation (Some ttl) kwargs Hop)
      as Hmo.
    pose proof (minted_subject_generate now0 user operation (Some ttl) kwargs)
      as Hms.
    rewrite Hid in Hms. simpl in Hms.
    rewrite (validate_token_loaded _ _ _ _ _ _ _ Hl Hmo Hms).
    repeat split.
    + by intros ->.
    + intros -> h Hh. simpl. by rewrite Hh.
    + intros -> e Hk He Hfree.
      subst token. rewrite (generated_extra _ _ _ _ _ _ _ Hk).
      change (String.eqb Operations.CHANGE_EMAIL Operations.CONFIRM) with false.
      change (String.eqb Operations.CHANGE_EMAIL Operations.RESET_PASSWORD) with false.
      change (String.eqb Operations.CHANGE_EMAIL Operations.CHANGE_EMAIL) with true.
      destruct e; [done | |]; simpl;
        (rewrite bool_decide_eq_false_2; [done |]);
        intros Hq; apply Hfree; by apply first_filter_by_email.
Qed.

Lemma validate_token_fresh
    now0 now user operation expire_in kwargs new_password db :
  kwargs !! "id" = None →
  kwargs !! "operation" = None →
  now ≤ now0 + default DEFAULT_EXPIRES_IN expire_in →
  let token := generate_token now0 user operation expire_in kwargs in
  let outcome := validate_token now user token operation new_password db in
  (operation = Operations.CONFIRM →
   outcome = (commit (update_user db (set_confirmed user true)), Return true))
  ∧ (operation = Operations.RESET_PASSWORD →
     ∀ h, generate_password_hash new_password = Return h →
     outcome = (commit (update_user db (set_password_hash user h)), Return true))
  ∧ (operation = Operations.CHANGE_EMAIL →
     ∀ e, kwargs !! "new_email" = Some e → e ≠ VNone → ¬ email_taken db e →
     outcome = (commit (update_user db (set_email user e)), Return true)).
Proof.
  intros Hid Hop Hin token outcome. subst outcome.
  assert (Hl : loads (Serializer SECRET_KEY None) now token
               = Return (token_payload token)).
  { subst token. rewrite loads_generate_token.
    by destruct (Z.ltb_spec (now0 + default DEFAULT_EXPIRES_IN expire_in) now);
      [lia |]. }
  pose proof (minted_operation_generate now0 user operation expire_in kwargs Hop)
    as Hmo.
  pose proof (minted_subject_generate now0 user operation expire_in kwargs)
    as Hms.
  rewrite Hid in Hms. simpl in Hms.
  rewrite (validate_token_loaded _ _ _ _ _ _ _ Hl Hmo Hms).
  repeat split.
  - by intros ->.
  - intros -> h Hh. simpl. by rewrite Hh.
  - intros -> e Hk He Hfree.
    subst token. rewrite (generated_extra _ _ _ _ _ _ _ Hk).
    change (String.eqb Operations.CHANGE_EMAIL Operations.CONFIRM) with false.
    change (String.eqb Operations.CHANGE_EMAIL Operations.RESET_PASSWORD) with false.
    change (String.eqb Operations.CHANGE_EMAIL Operations.CHANGE_EMAIL) with true.
    destruct e; [done | |]; simpl;
      (rewrite bool_decide_eq_false_2; [done |]);
      intros Hq; apply Hfree; by apply first_filter_by_email.
Qed.

(** C5 (amended): a token issued without [ttl] is the token issued with
    the serializer's default of 3600 seconds.  [validate_token] refuses it
    at every time later than [now0 + 3600], whatever the user and the
    operation.  Up to and including [now0 + 3600] elapsed time is no
    reason to refuse it: the serializer accepts it, and [validate_token],
    called for the user and the operation it was issued for (the extra
    payload overriding neither), succeeds and commits the mutation, for
    Confirm always, for ResetPassword when the new password hashes, for
    ChangeEmail when the payload carries a new email no user owns. *)
Theorem generate_token_default_expiry now0 user operation kwargs :
  let token := generate_token now0 user operation None kwargs in
  token = generate_token now0 user operation (Some 3600) kwargs
  ∧ (∀ now user' operation' new_password db,
       now0 + 3600 < now →
       validate_token now user' token operation' new_password db
       = (db, Return false))
  ∧ (∀ now new_password db,
       now ≤ now0 + 3600 →
       kwargs !! "id" = None →
       kwargs !! "operation" = None →
       let outcome := validate_token now user token operation new_password db in
       (operation = Operations.CONFIRM →
        outcome
        = (commit (update_user db (set_confirmed user true)), Return true))
       ∧ (operation = Operations.RESET_PASSWORD →
          ∀ h, generate_password_hash new_password = Return h →
          outcome
          = (commit (update_user db (set_password_hash user h)), Return true))
       ∧ (operation = Operations.CHANGE_EMAIL →
          ∀ e, kwargs !! "new_email" = Some e → e ≠ VNone →
               ¬ email_taken db e →
          outcome = (commit (update_user db (set_email user e)), Return true)))
  ∧ (∀ now, now ≤ now0 + 3600 →
       loads (Serializer SECRET_KEY None) now token
       = Return (token_payload token)).
Proof.
  intros token. split; [done |]. split; [| split].
  - intros now user' operation' new_password db Hlate.
    eapply validate_token_not_loaded. subst token.
    rewrite loads_generate_token. simpl. unfold DEFAULT_EXPIRES_IN.
    destruct (Z.ltb_spec (now0 + 3600) now); [done | lia].
  - intros now new_password db Hin Hid Hop.
    by apply (validate_token_fresh now0 now user operation None kwargs
                new_password db Hid Hop).
  - intros now Hin. subst token. rewrite loads_generate_token. simpl.
    unfold DEFAULT_EXPIRES_IN.
    destruct (Z.ltb_spec (now0 + 3600) now); [lia | done].
Qed.

(** C6 (amended): a token issued by [generate_token] and validated for an
    operation other than the one it was minted for is refused, at every
    time, and nothing changes; the same holds when it is validated for a
    user whose id differs from the id of the user it was minted for,
    provided the extra payload given at issuance does not name an id of
    its own. *)
Theorem validate_token_pair_mismatch now0 user0 operation0 expire_in kwargs :
  kwargs !! "operation" = None →
  let token := generate_token now0 user0 operation0 expire_in kwargs in
  (∀ now user operation new_password db,
     operation ≠ operation0 →
     validate_token now user token operation new_password db
     = (db, Return false))
  ∧ (kwargs !! "id" = None →
     ∀ now user operation new_password db,
       user_id user ≠ user_id user0 →
       validate_token now user token operation new_password db
       = (db, Return false)).
Proof.
  intros Hop token.
  pose proof (minted_operation_generate now0 user0 operation0 expire_in kwargs Hop)
    as Hmo.
  pose proof (minted_subject_generate now0 user0 operation0 expire_in kwargs)
    as Hms.
  fold token in Hmo, Hms. split.
  - intros now user operation new_password db Hne.
    apply validate_token_mismatch. left. rewrite Hmo. congruence.
  - intros Hid now user operation new_password db Hne.
    apply validate_token_mismatch. right. rewrite Hms, Hid. simpl. congruence.
Qed.

(** *** All or nothing *)


(** *** Changing the email *)

(** C3 (amended): for a ChangeEmail token that the serializer accepts,
    minted for the subject user and carrying a new email, validation
    returns the failure exactly when some user of the directory, the
    subject included, already owns that email, and then changes
    nothing; otherwise it succeeds, sets the subject user's email and
    commits it. *)
Theorem validate_token_change_email now user token new_password db data e :
  loads (Serializer SECRET_KEY None) now token = Return data →
  dict_get data "operation" = VStr Operations.CHANGE_EMAIL →
  dict_get data "id" = VInt (user_id user) →
  dict_get data "new_email" = e →
  e ≠ VNone →
  let outcome :=
    validate_token now user token Operations.CHANGE_EMAIL new_password db in
  (snd outcome = Return false ↔ email_taken db e)
  ∧ (email_taken db e → outcome = (db, Return false))
  ∧ (¬ email_taken db e →
     outcome = (commit (update_user db (set_email user e)), Return true)
     ∧ users (fst outcome) !! user_id user = Some (set_email user e)
     ∧ stored_users (fst outcome) !! user_id user = Some (set_email user e)).
Proof.
  intros Hl Hop Hid He Hne outcome.
  assert (Hout : outcome
    = if bool_decide (email_taken db e) then (db, Return false)
      else (commit (update_user db (set_email user e)), Return true)).
  { subst outcome. rewrite (validate_token_loaded _ _ _ _ _ _ _ Hl Hop Hid).
    change (String.eqb Operations.CHANGE_EMAIL Operations.CONFIRM) with false.
    change (String.eqb Operations.CHANGE_EMAIL Operations.RESET_PASSWORD) with false.
    change (String.eqb Operations.CHANGE_EMAIL Operations.CHANGE_EMAIL) with true.
    rewrite He. cbv beta zeta iota.
    destruct e; [done | |]; simpl;
      (case_bool_decide as Hq;
       [ rewrite bool_decide_eq_true_2; [done | by apply first_filter_by_email]
       | rewrite bool_decide_eq_false_2; [done |];
         intros Ht; by apply first_filter_by_email in Ht ]). }
  rewrite Hout. split; [| split].
  - case_bool_decide; simpl; split; done.
  - intros Ht. by rewrite bool_decide_eq_true_2.
  - intros Hf. rewrite bool_decide_eq_false_2 by done. simpl.
    split; [done |]. split; apply lookup_insert_eq.
Qed.

(** *** Resetting the password without a new password *)

(** C4 (the code at the failing input): for a ResetPassword token just
    issued for the user, [validate_token] called without a new password
    hands [None] to [set_password]: it either raises what the hash
    function raises, or stores the hash of [None], commits and returns
    success.  It never returns the failure. *)
Theorem validate_token_reset_without_password now user db :
  let token :=
    generate_token now user Operations.RESET_PASSWORD (Some 3600) ∅ in
  let outcome :=
    validate_token now user token Operations.RESET_PASSWORD None db in
  outcome
  = match generate_password_hash None with
    | Return h => (commit (update_user db (set_password_hash user h)), Return true)
    | Raise e => (db, Raise e)
    end
  ∧ snd outcome ≠ Return false.
Proof.
  intros token outcome.
  assert (Hl : loads (Serializer SECRET_KEY None) now token
               = Return (token_payload token)).
  { subst token. rewrite loads_generate_token. simpl.
    destruct (Z.ltb_spec (now + 3600) now); [lia | done]. }
  assert (Hout : outcome
    = match generate_password_hash None with
      | Return h => (commit (update_user db (set_password_hash user h)), Return true)
      | Raise e => (db, Raise e)
      end).
  { subst outcome.
    rewrite (validate_token_loaded _ _ _ _ _ _ _ Hl); [done | |].
    - apply (minted_operation_generate now user _ (Some 3600) ∅). apply lookup_empty.
    - pose proof (minted_subject_generate now user Operations.RESET_PASSWORD
                    (Some 3600) ∅) as Hs.
      by rewrite lookup_empty in Hs. }
  split; [done |]. rewrite Hout.
  by destruct (generate_password_hash None).
Qed.

(** *** Safe redirects *)





(** *** Notifications *)

Lemma push_commits receiver ev db :
  push receiver ev db
  = (mkDb (users db) (users db) []
          (notifications db ++ pending db ++ [event_record receiver ev])
          (S (commits db)), Return tt).
Proof.
  destruct ev; unfold push, push_follow_notification,
    push_comment_notification, push_collect_notification, bind, session_add,
    session_commit, commit, event_record, Notification; reflexivity.
Qed.

Lemma push_all_clean receiver evs db :
  pending db = [] →
  push_all receiver evs db
  = (mkDb (users db)
          (if evs is [] then stored_users db else users db) []
          (notifications db ++ (event_record receiver <$> evs))
          (commits db + length evs)%nat, Return tt).
Proof.
  revert db. induction evs as [| ev rest IH]; intros db Hclean.
  - simpl. unfold ret. destruct db; simpl in *. subst.
    by rewrite app_nil_r, Nat.add_0_r.
  - simpl. unfold bind. rewrite push_commits, Hclean. simpl.
    rewrite IH by done. simpl. f_equal. f_equal.
    + by destruct rest.
    + by rewrite <- app_assoc.
    + lia.
Qed.

(** C9: each call of a notification helper adds one record for the
    receiver to the session and commits at once; a sequence of calls for
    one receiver leaves, after what was committed or pending before it,
    exactly one record per call, in call order, each for that receiver and
    unread. *)
Theorem push_notifications_append receiver :
  (∀ follower photo_id page collector db,
     push_follow_notification follower receiver db
       = push receiver (Followed follower) db
     ∧ push_comment_notification photo_id receiver page db
       = push receiver (Commented photo_id page) db
     ∧ push_collect_notification collector photo_id receiver db
       = push receiver (Collected collector photo_id) db)
  ∧ (∀ ev db,
       let db' := fst (push receiver ev db) in
       snd (push receiver ev db) = Return tt
       ∧ notifications db'
         = notifications db ++ pending db ++ [event_record receiver ev]
       ∧ pending db' = []
       ∧ commits db' = S (commits db))
  ∧ (∀ ev rest db,
       let rows := event_record receiver <$> (ev :: rest) in
       let db' := fst (push_all receiver (ev :: rest) db) in
       snd (push_all receiver (ev :: rest) db) = Return tt
       ∧ notifications db' = notifications db ++ pending db ++ rows
       ∧ pending db' = []
       ∧ length rows = length (ev :: rest)
       ∧ Forall (fun n => receiver_id n = user_id receiver ∧ is_read n = false)
                rows
       ∧ commits db' = (commits db + length (ev :: rest))%nat).
Proof.
  split; [done |]. split.
  - intros ev db. by rewrite push_commits.
  - intros ev rest db. cbn zeta.
    change (push_all receiver (ev :: rest) db)
      with (bind (push receiver ev) (fun _ => push_all receiver rest) db).
    unfold bind. rewrite push_commits, push_all_clean by done. simpl.
    repeat split.
    + by rewrite <- !app_assoc.
    + by rewrite length_fmap.
    + constructor; [done |]. apply Forall_fmap, Forall_true. done.
    + lia.
Qed.

(** *** The guest identity *)

(** C10: [Guest] answers [False] to [can] for every permission name and to
    [is_admin], so with a guest as the current user the gates
    [permission_required] and [admin_required] abort with 403 and the view
    function does not run. *)
Theorem guest_is_denied (guest : Guest) (permission_name : string) :
  can guest permission_name = false
  ∧ is_admin guest = false
  ∧ ∀ (A R : Type) (func : A → result R) (args : A),
      permission_required guest permission_name func args
      = Raise (HTTPException 403)
      ∧ admin_required guest func args = Raise (HTTPException 403).
Proof. done. Qed.

End Properties.

(** ** The properties at concrete inputs *)

Section Examples.
Import Example.
#[local] Existing Instance env.

(** C1, as the claim states it, fails: at the instant [issuedAt + ttl]
    itself the token is still accepted; within the window, an operation
    outside the three, a ChangeEmail token without a new email, and a
    token whose extra payload names another id are all refused. *)
Lemma validate_at_expiry_instant :
  1060 >= 1000 + 60
  ∧ snd (validate_token 1060 alice
           (generate_token 1000 alice Operations.CONFIRM (Some 60) ∅)
           Operations.CONFIRM None db0) = Return true
  ∧ 1000 < 1000 + 60
  ∧ snd (validate_token 1000 alice
           (generate_token 1000 alice "delete-account" (Some 60) ∅)
           "delete-account" None db0) = Return false
  ∧ snd (validate_token 1000 alice
           (generate_token 1000 alice Operations.CHANGE_EMAIL (Some 60) ∅)
           Operations.CHANGE_EMAIL None db0) = Return false
  ∧ snd (validate_token 1000 alice
           (generate_token 1000 alice Operations.CONFIRM (Some 60)
              {["id" := VInt 2]})
           Operations.CONFIRM None db0) = Return false.
Proof.
  split; [lia |]. split; [vm_compute; reflexivity |]. split; [lia |].
  repeat split; vm_compute; reflexivity.
Qed.

Lemma validate_generated_token_window_witness :
  (∅ : gmap string value) !! "id" = None
  ∧ (∅ : gmap string value) !! "operation" = None
  ∧ 1030 ≤ 1000 + 60
  ∧ validate_token 1030 alice
      (generate_token 1000 alice Operations.CONFIRM (Some 60) ∅)
      Operations.CONFIRM None db0
    = (commit (update_user db0 (set_confirmed alice true)), Return true).
Proof.
  assert (Hin : 1030 ≤ 1000 + 60) by lia.
  split; [reflexivity |]. split; [reflexivity |]. split; [exact Hin |].
  exact (proj1 (proj2 (validate_generated_token_window
                         1000 1030 alice Operations.CONFIRM 60 ∅ None db0
                         eq_refl eq_refl) Hin) eq_refl).
Defined.


(** C3, as the claim states it, fails: alice asks for the email she
    already has; no other user owns it, and validation still returns the
    failure. *)
Lemma change_email_to_own_email :
  let token :=
    generate_token 1000 alice Operations.CHANGE_EMAIL (Some 60)
      {["new_email" := VStr "alice@example.com"]} in
  (∀ i other, users db0 !! i = Some other →
              email other = VStr "alice@example.com" →
              user_id other = user_id alice)
  ∧ validate_token 1000 alice token Operations.CHANGE_EMAIL None db0
    = (db0, Return false).
Proof.
  split.
  - intros i other Hl He. unfold db0 in Hl. simpl in Hl.
    apply lookup_insert_Some in Hl as [[_ <-] | [_ Hl]]; [done |].
    apply lookup_singleton_Some in Hl as [_ <-]. discriminate He.
  - vm_compute. reflexivity.
Qed.

Lemma validate_token_change_email_witness :
  let e := VStr "new@example.com" in
  let token :=
    generate_token 1000 alice Operations.CHANGE_EMAIL (Some 60)
      {["new_email" := e]} in
  loads (Serializer SECRET_KEY None) 1000 token = Return (token_payload token)
  ∧ dict_get (token_payload token) "operation" = VStr Operations.CHANGE_EMAIL
  ∧ dict_get (token_payload token) "id" = VInt (user_id alice)
  ∧ dict_get (token_payload token) "new_email" = e
  ∧ e ≠ VNone
  ∧ (snd (validate_token 1000 alice token Operations.CHANGE_EMAIL None db0)
     = Return false ↔ email_taken db0 e).
Proof.
  intros e token.
  assert (H1 : loads (Serializer SECRET_KEY None) 1000 token
               = Return (token_payload token)) by (vm_compute; reflexivity).
  assert (H2 : dict_get (token_payload token) "operation"
               = VStr Operations.CHANGE_EMAIL) by (vm_compute; reflexivity).
  assert (H3 : dict_get (token_payload token) "id" = VInt (user_id alice))
    by (vm_compute; reflexivity).
  assert (H4 : dict_get (token_payload token) "new_email" = e)
    by (vm_compute; reflexivity).
  assert (H5 : e ≠ VNone) by discriminate.
  repeat (split; [assumption |]).
  exact (proj1 (validate_token_change_email 1000 alice token None db0
                  (token_payload token) e H1 H2 H3 H4 H5)).
Defined.

(** C5, as the claim states it, fails: a token issued without [ttl] is
    accepted 3600 seconds after issuance and refused one second later. *)
Lemma token_without_ttl_expires :
  let token := generate_token 1000 alice Operations.CONFIRM None ∅ in
  snd (validate_token 4600 alice token Operations.CONFIRM None db0)
  = Return true
  ∧ validate_token 4601 alice token Operations.CONFIRM None db0
    = (db0, Return false).
Proof. split; vm_compute; reflexivity. Qed.

Lemma generate_token_default_expiry_witness :
  let token := generate_token 1000 alice Operations.CONFIRM None ∅ in
  1000 + 3600 < 5000
  ∧ validate_token 5000 alice token Operations.CONFIRM None db0
    = (db0, Return false)
  ∧ 4600 ≤ 1000 + 3600
  ∧ (∅ : gmap string value) !! "id" = None
  ∧ (∅ : gmap string value) !! "operation" = None
  ∧ validate_token 4600 alice token Operations.CONFIRM None db0
    = (commit (update_user db0 (set_confirmed alice true)), Return true).
Proof.
  intros token.
  assert (Hlate : 1000 + 3600 < 5000) by lia.
  assert (Hin : 4600 ≤ 1000 + 3600) by lia.
  split; [exact Hlate |].
  split.
  { exact (proj1 (proj2 (generate_token_default_expiry
                           1000 alice Operations.CONFIRM ∅))
             5000 alice Operations.CONFIRM None db0 Hlate). }
  split; [exact Hin |]. split; [reflexivity |]. split; [reflexivity |].
  exact (proj1 (proj1 (proj2 (proj2 (generate_token_default_expiry
                                       1000 alice Operations.CONFIRM ∅)))
                  4600 None db0 Hin eq_refl eq_refl) eq_refl).
Defined.

(** C6, as the claim states it, fails: a token minted for alice whose
    extra payload names bob's id validates for bob. *)
Lemma token_minted_with_other_id :
  user_id bob ≠ user_id alice
  ∧ validate_token 1000 bob
      (generate_token 1000 alice Operations.CONFIRM (Some 60)
         {["id" := VInt (user_id bob)]})
      Operations.CONFIRM None db0
    = (commit (update_user db0 (set_confirmed bob true)), Return true).
Proof. split; [discriminate | vm_compute; reflexivity]. Qed.

Lemma validate_token_pair_mismatch_witness :
  let token := generate_token 1000 alice Operations.CONFIRM (Some 60) ∅ in
  (∅ : gmap string value) !! "operation" = None
  ∧ (∅ : gmap string value) !! "id" = None
  ∧ user_id bob ≠ user_id alice
  ∧ validate_token 1000 bob token Operations.CONFIRM None db0
    = (db0, Return false)
  ∧ Operations.RESET_PASSWORD ≠ Operations.CONFIRM
  ∧ validate_token 1000 alice token Operations.RESET_PASSWORD (Some "pw") db0
    = (db0, Return false).
Proof.
  intros token.
  assert (Hu : user_id bob ≠ user_id alice) by discriminate.
  assert (Ho : Operations.RESET_PASSWORD ≠ Operations.CONFIRM) by discriminate.
  split; [reflexivity |]. split; [reflexivity |]. split; [exact Hu |].
  split.
  { exact (proj2 (validate_token_pair_mismatch
                    1000 alice Operations.CONFIRM (Some 60) ∅ eq_refl)
             eq_refl 1000 bob Operations.CONFIRM None db0 Hu). }
  split; [exact Ho |].
  exact (proj1 (validate_token_pair_mismatch
                  1000 alice Operations.CONFIRM (Some 60) ∅ eq_refl)
           1000 alice Operations.RESET_PASSWORD (Some "pw") db0 Ho).
Defined.

Example reset_without_password_raises :
  validate_token 1000 alice
    (generate_token 1000 alice Operations.RESET_PASSWORD (Some 3600) ∅)
    Operations.RESET_PASSWORD None db0
  = (db0, Raise (OtherError "TypeError")).
Proof. vm_compute. reflexivity. Qed.

Example reset_with_password_commits :
  stored_users
    (fst (validate_token 1000 alice
            (generate_token 1000 alice Operations.RESET_PASSWORD (Some 3600) ∅)
            Operations.RESET_PASSWORD (Some "p@ss2") db0)) !! 1
  = Some (set_password_hash alice "hash$p@ss2").
Proof. vm_compute. reflexivity. Qed.

Example redirect_back_skips_foreign_host :
  redirect_back
    (mkRequest "http://photo.example/"
               [("next", "http://evil.example/x")] (Some "user/bob"))
    None []
  = Redirect "user/bob".
Proof. vm_compute. reflexivity. Qed.

Example redirect_back_falls_back :
  redirect_back
    (mkRequest "http://photo.example/"
               [("next", "ftp://photo.example/x")] (Some EmptyString))
    None []
  = Redirect "/main.index".
Proof. vm_compute. reflexivity. Qed.

Example three_events_three_records :
  let db' :=
    fst (push_all alice [Followed bob; Commented 7 None; Collected bob 7] db0) in
  length (notifications db') = 3%nat
  ∧ message <$> notifications db'
    = event_message <$> [Followed bob; Commented 7 None; Collected bob 7]
  ∧ is_read <$> notifications db' = [false; false; false].
Proof. vm_compute. done. Qed.

End Examples.

(** ** Further properties of the helpers *)

Section MoreProperties.
Context `{Externals} `{Runtime}.

(** *** Tokens *)

Lemma loads_before s now now2 header payload signature data :
  loads s now (Signed header payload signature) = Return data →
  now2 ≤ exp header →
  loads s now2 (Signed header payload signature) = Return data.
Proof.
  simpl. destruct (negb _); [discriminate |].
  destruct (Z.ltb_spec (exp header) now); [discriminate |].
  intros [= <-] Hle.
  by destruct (Z.ltb_spec (exp header) now2); [lia |].
Qed.

Lemma validate_token_true_inv now user token operation new_password db db1 :
  validate_token now user token operation new_password db = (db1, Return true) →
  loads (Serializer SECRET_KEY None) now token = Return (token_payload token)
  ∧ minted_operation token = VStr operation
  ∧ minted_subject token = VInt (user_id user).
Proof.
  intros Hv.
  destruct (loads (Serializer SECRET_KEY None) now token) as [data | e] eqn:Hl.
  2: { by rewrite (validate_token_not_loaded _ _ _ _ _ _ _ Hl) in Hv. }
  destruct (decide (VStr operation = minted_operation token)) as [Hop | Hop].
  2: { by rewrite validate_token_mismatch in Hv by (by left). }
  destruct (decide (VInt (user_id user) = minted_subject token)) as [Hid | Hid].
  2: { by rewrite validate_token_mismatch in Hv by (by right). }
  apply loads_Return in Hl as [<- _]. done.
Qed.

Lemma validate_token_cases now user token operation new_password db db' r :
  validate_token now user token operation new_password db = (db', r) →
  (db' = db ∧ r ≠ Return true)
  ∨ (r = Return true
     ∧ ∃ user', db' = commit (update_user db user')
       ∧ ((operation = Operations.CONFIRM ∧ user' = set_confirmed user true)
          ∨ (operation = Operations.RESET_PASSWORD
             ∧ ∃ h, generate_password_hash new_password = Return h
                    ∧ user' = set_password_hash user h)
          ∨ (operation = Operations.CHANGE_EMAIL
             ∧ ∃ e, e = dict_get (token_payload token) "new_email"
                    ∧ e ≠ VNone ∧ ¬ email_taken db e
                    ∧ user' = set_email user e))).
Proof.
  intros Hv.
  destruct (loads (Serializer SECRET_KEY None) now token) as [data | e] eqn:Hl.
  2: { rewrite (validate_token_not_loaded _ _ _ _ _ _ _ Hl) in Hv.
       injection Hv as <- <-. by left. }
  destruct (decide (VStr operation = minted_operation token)) as [Hop | Hop].
  2: { rewrite validate_token_mismatch in Hv by (by left).
       injection Hv as <- <-. by left. }
  destruct (decide (VInt (user_id user) = minted_subject token)) as [Hid | Hid].
  2: { rewrite validate_token_mismatch in Hv by (by right).
       injection Hv as <- <-. by left. }
  pose proof (loads_Return _ _ _ _ Hl) as [Hp _].
  unfold minted_operation in Hop. unfold minted_subject in Hid.
  rewrite Hp in Hop, Hid.
  rewrite (validate_token_loaded _ _ _ _ _ _ _ Hl (eq_sym Hop) (eq_sym Hid)) in Hv.
  destruct (String.eqb_spec operation Operations.CONFIRM) as [-> | _].
  { injection Hv as <- <-. right. split; [done |]. eexists. split; [done |].
    by left. }
  destruct (String.eqb_spec operation Operations.RESET_PASSWORD) as [-> | _].
  { destruct (generate_password_hash new_password) as [h | e] eqn:Hh;
      injection Hv as <- <-; [| by left].
    right. split; [done |]. eexists. split; [done |]. right. left. eauto. }
  destruct (String.eqb_spec operation Operations.CHANGE_EMAIL) as [-> | _].
  2: { injection Hv as <- <-. by left. }
  simpl in Hv. destruct (is_None _) eqn:Hn; [injection Hv as <- <-; by left |].
  case_bool_decide as Hq; injection Hv as <- <-; [by left |].
  right. split; [done |]. eexists. split; [done |]. right. right.
  split; [done |]. exists (dict_get data "new_email").
  rewrite Hp. split; [done |]. split; [by intros Heq; rewrite Heq in Hn |].
  split; [| done]. intros Ht. apply first_filter_by_email in Ht.
  by rewrite Hq in Ht.
Qed.

(** X1: a token that is not of the signed form, or whose signature is not
    the one the server's key gives for its header and payload, is refused
    for every user, operation and time, and nothing changes. *)
Theorem validate_token_forged now user token operation new_password db :
  (∀ header payload signature,
     token = Signed header payload signature →
     signature ≠ sign SECRET_KEY header payload) →
  validate_token now user token operation new_password db = (db, Return false).
Proof.
  intros Hsig. apply validate_token_not_loaded with (e := BadSignature).
  destruct token as [header payload signature | raw]; [| done]. simpl.
  destruct (String.eqb_spec signature (sign SECRET_KEY header payload)) as [Heq | _];
    [| done].
  by destruct (Hsig header payload signature eq_refl).
Qed.

(** X2: an operation that is none of confirm, reset-password and
    change-email is refused for every token, also one minted for that very
    operation, and nothing changes. *)
Theorem validate_token_unknown_operation
    now user token operation new_password db :
  operation ≠ Operations.CONFIRM →
  operation ≠ Operations.RESET_PASSWORD →
  operation ≠ Operations.CHANGE_EMAIL →
  validate_token now user token operation new_password db = (db, Return false).
Proof.
  intros H1 H2 H3.
  destruct (loads (Serializer SECRET_KEY None) now token) as [data | e] eqn:Hl.
  2: { by eapply validate_token_not_loaded. }
  destruct (decide (VStr operation = minted_operation token)) as [Hop | Hop].
  2: { apply validate_token_mismatch. by left. }
  destruct (decide (VInt (user_id user) = minted_subject token)) as [Hid | Hid].
  2: { apply validate_token_mismatch. by right. }
  pose proof (loads_Return _ _ _ _ Hl) as [Hp _].
  unfold minted_operation in Hop. unfold minted_subject in Hid.
  rewrite Hp in Hop, Hid.
  rewrite (validate_token_loaded _ _ _ _ _ _ _ Hl (eq_sym Hop) (eq_sym Hid)).
  apply String.eqb_neq in H1, H2, H3. by rewrite H1, H2, H3.
Qed.

(** X3: no single use for Confirm: once a Confirm token has validated, it
    validates again, from the state the first validation left, at every
    time up to its expiry; the second validation commits again and leaves
    the users as the first one left them. *)
Theorem validate_token_confirm_replay
    now user header payload signature new_password db db1 :
  validate_token now user (Signed header payload signature)
    Operations.CONFIRM new_password db = (db1, Return true) →
  ∀ now2 new_password2,
    now2 ≤ exp header →
    validate_token now2 (set_confirmed user true)
      (Signed header payload signature) Operations.CONFIRM new_password2 db1
    = (commit db1, Return true)
    ∧ users (commit db1) = users db1
    ∧ users db1 !! user_id user = Some (set_confirmed user true).
Proof.
  intros Hv now2 pw2 Hle.
  pose proof (validate_token_true_inv _ _ _ _ _ _ _ Hv) as (Hl & Hop & Hid).
  rewrite (validate_token_loaded _ _ _ _ _ _ _ Hl Hop Hid) in Hv.
  injection Hv as <-.
  rewrite (validate_token_loaded now2 (set_confirmed user true) _ _ _ _ _
             (loads_before _ _ _ _ _ _ _ Hl Hle) Hop Hid).
  split; [| split; [done | apply lookup_insert_eq]].
  simpl. f_equal. unfold commit, update_user. simpl.
  by rewrite insert_insert_eq.
Qed.

(** X4: after a ChangeEmail token has validated, the subject user owns the
    new email, and the token is refused, with nothing changed, in every
    state in which some user owns that email, so in the state the
    validation left, at every time and for every user.  The token is not
    used up: in a state where no user owns the email, at a time the
    serializer still accepts it, it validates again for a user with the
    subject's id. *)
Theorem validate_token_change_email_replay
    now user token new_password db db1 :
  validate_token now user token Operations.CHANGE_EMAIL new_password db
  = (db1, Return true) →
  let e := dict_get (token_payload token) "new_email" in
  users db1 !! user_id user = Some (set_email user e)
  ∧ email_taken db1 e
  ∧ (∀ now2 user2 new_password2 db2,
       email_taken db2 e →
       validate_token now2 user2 token Operations.CHANGE_EMAIL new_password2 db2
       = (db2, Return false))
  ∧ (∀ now2 user2 new_password2 db2,
       loads (Serializer SECRET_KEY None) now2 token
       = Return (token_payload token) →
       user_id user2 = user_id user →
       ¬ email_taken db2 e →
       validate_token now2 user2 token Operations.CHANGE_EMAIL new_password2 db2
       = (commit (update_user db2 (set_email user2 e)), Return true)).
Proof.
  intros Hv e.
  pose proof (validate_token_true_inv _ _ _ _ _ _ _ Hv) as (Hl & Hop & Hid).
  destruct (validate_token_cases _ _ _ _ _ _ _ _ Hv)
    as [[_ ?] | [_ (u' & -> & [[? _] | [[? _] | [_ (e' & -> & Hne & _ & ->)]]])]];
    try done.
  fold e in Hne |- *.
  assert (Hin : users (commit (update_user db (set_email user e))) !! user_id user
                = Some (set_email user e)) by apply lookup_insert_eq.
  split; [done |].
  split; [by exists (user_id user), (set_email user e) |].
  assert (Hbody : ∀ now2 user2 pw2 db2,
             loads (Serializer SECRET_KEY None) now2 token
             = Return (token_payload token) →
             user_id user2 = user_id user →
             validate_token now2 user2 token Operations.CHANGE_EMAIL pw2 db2
             = if bool_decide (email_taken db2 e) then (db2, Return false)
               else (commit (update_user db2 (set_email user2 e)), Return true)).
  { intros now2 user2 pw2 db2 Hl2 Hu.
    assert (Hid2 : dict_get (token_payload token) "id" = VInt (user_id user2))
      by (by rewrite Hu).
    rewrite (validate_token_loaded now2 user2 _ _ _ _ _ Hl2 Hop Hid2).
    change (String.eqb Operations.CHANGE_EMAIL Operations.CONFIRM) with false.
    change (String.eqb Operations.CHANGE_EMAIL Operations.RESET_PASSWORD)
      with false.
    change (String.eqb Operations.CHANGE_EMAIL Operations.CHANGE_EMAIL) with true.
    cbv beta zeta iota. fold e.
    destruct e; [done | |]; simpl;
      (case_bool_decide as Hq;
       [ rewrite bool_decide_eq_true_2; [done | by apply first_filter_by_email]
       | rewrite bool_decide_eq_false_2; [done |];
         intros Ht; by apply first_filter_by_email in Ht ]). }
  split.
  - intros now2 user2 pw2 db2 Ht.
    destruct (loads (Serializer SECRET_KEY None) now2 token) as [data | x] eqn:Hl2.
    2: { by eapply validate_token_not_loaded. }
    pose proof (loads_Return _ _ _ _ Hl2) as [<- _].
    destruct (decide (user_id user2 = user_id user)) as [Hu | Hu].
    + rewrite (Hbody _ _ _ _ Hl2 Hu). by rewrite bool_decide_eq_true_2.
    + apply validate_token_mismatch. right. rewrite Hid. congruence.
  - intros now2 user2 pw2 db2 Hl2 Hu Hfree.
    rewrite (Hbody _ _ _ _ Hl2 Hu). by rewrite bool_decide_eq_false_2.
Qed.

(** X5: no single use for ResetPassword: once a ResetPassword token has
    validated, it validates again at every time up to its expiry with any
    other password that hashes, and replaces the password set before. *)
Theorem validate_token_reset_replay
    now user header payload signature new_password db db1 :
  validate_token now user (Signed header payload signature)
    Operations.RESET_PASSWORD new_password db = (db1, Return true) →
  ∃ h1, generate_password_hash new_password = Return h1
    ∧ users db1 !! user_id user = Some (set_password_hash user h1)
    ∧ ∀ now2 new_password2 h2,
        now2 ≤ exp header →
        generate_password_hash new_password2 = Return h2 →
        validate_token now2 (set_password_hash user h1)
          (Signed header payload signature) Operations.RESET_PASSWORD
          new_password2 db1
        = (commit (update_user db1 (set_password_hash user h2)), Return true).
Proof.
  intros Hv.
  pose proof (validate_token_true_inv _ _ _ _ _ _ _ Hv) as (Hl & Hop & Hid).
  rewrite (validate_token_loaded _ _ _ _ _ _ _ Hl Hop Hid) in Hv.
  change (String.eqb Operations.RESET_PASSWORD Operations.CONFIRM) with false in Hv.
  change (String.eqb Operations.RESET_PASSWORD Operations.RESET_PASSWORD)
    with true in Hv.
  cbv iota in Hv.
  destruct (generate_password_hash new_password) as [h1 | e] eqn:Hh; [| done].
  injection Hv as <-. exists h1. split; [done |].
  split; [apply lookup_insert_eq |].
  intros now2 pw2 h2 Hle Hh2.
  rewrite (validate_token_loaded now2 (set_password_hash user h1) _ _ _ _ _
             (loads_before _ _ _ _ _ _ _ Hl Hle) Hop Hid).
  change (String.eqb Operations.RESET_PASSWORD Operations.CONFIRM) with false.
  change (String.eqb Operations.RESET_PASSWORD Operations.RESET_PASSWORD) with true.
  cbv iota. by rewrite Hh2.
Qed.

(** X6: whatever it returns, [validate_token] touches no user but the
    subject, keeps the subject's id and username, and neither adds nor
    drops a notification. *)
Theorem validate_token_frame now user token operation new_password db db' r :
  validate_token now user token operation new_password db = (db', r) →
  (∀ i, i ≠ user_id user → users db' !! i = users db !! i)
  ∧ (∀ user', users db' !! user_id user = Some user' →
       users db !! user_id user = Some user'
       ∨ (user_id user' = user_id user ∧ username user' = username user))
  ∧ notifications db' ++ pending db' = notifications db ++ pending db.
Proof.
  intros Hv.
  destruct (validate_token_cases _ _ _ _ _ _ _ _ Hv)
    as [[-> _] | [_ (u' & -> & Hu)]].
  { split; [done |]. split; [by left | done]. }
  assert (Hsame : user_id u' = user_id user ∧ username u' = username user).
  { destruct Hu as [[_ ->] | [[_ (h & _ & ->)] | [_ (e & _ & _ & _ & ->)]]];
      done. }
  destruct Hsame as [Hi Hn]. simpl. rewrite Hi.
  split; [intros i Hne; by rewrite lookup_insert_ne |].
  split; [| by rewrite app_nil_r].
  intros user'. rewrite lookup_insert_eq. intros [= <-]. by right.
Qed.

(** X7: [validate_token] keeps the directory well formed: if the subject
    user is an object of the session, every user sits under its own id
    and no two users share an email, then the same holds of the state it
    leaves, whatever it returns. *)
Theorem validate_token_keeps_directory
    now user token operation new_password db db' r :
  users db !! user_id user = Some user →
  keyed_by_id db →
  emails_unique db →
  validate_token now user token operation new_password db = (db', r) →
  keyed_by_id db' ∧ emails_unique db'.
Proof.
  intros Hin Hk Hu Hv.
  destruct (validate_token_cases _ _ _ _ _ _ _ _ Hv)
    as [[-> _] | [_ (u' & -> & Hcase)]]; [done |].
  assert (Hi : user_id u' = user_id user).
  { destruct Hcase as [[_ ->] | [[_ (h & _ & ->)] | [_ (e & _ & _ & _ & ->)]]];
      done. }
  assert (He : ∀ j v, j ≠ user_id user → users db !! j = Some v →
                      email u' ≠ email v).
  { intros j v Hne Hj Heq.
    destruct Hcase as [[_ ->] | [[_ (h & _ & ->)] | [_ (e & _ & _ & Hfree & ->)]]].
    - apply Hne. symmetry. by apply (Hu _ _ _ _ Hin Hj).
    - apply Hne. symmetry. by apply (Hu _ _ _ _ Hin Hj).
    - apply Hfree. exists j, v. done. }
  unfold keyed_by_id, emails_unique. simpl. rewrite Hi. split.
  - intros i u. rewrite lookup_insert. case_decide as Hd.
    + intros [= <-]. by rewrite Hi.
    + apply Hk.
  - intros i j u v. rewrite !lookup_insert.
    case_decide as Hd1; case_decide as Hd2; subst.
    + done.
    + intros [= <-] Hj Heq. exfalso. by eapply (He j v).
    + intros Hi' [= <-] Heq. exfalso. by eapply (He i u).
    + apply Hu.
Qed.

(** X8: the round trip at issuance: with a non-negative time-to-live the
    serializer accepts a token at the time it was issued and returns the
    payload, which has the extra entries as given, the user's id and the
    operation where the extra payload names neither, and nothing else;
    with a negative time-to-live the token is refused from the start. *)
Theorem generate_token_round_trip now0 user operation ttl kwargs :
  let token := generate_token now0 user operation (Some ttl) kwargs in
  (0 ≤ ttl →
   loads (Serializer SECRET_KEY None) now0 token = Return (token_payload token))
  ∧ (ttl < 0 →
     ∀ user' operation' new_password db,
       validate_token now0 user' token operation' new_password db
       = (db, Return false))
  ∧ ∀ k, dict_get (token_payload token) k
         = match kwargs !! k with
           | Some v => v
           | None =>
               if decide (k = "id") then VInt (user_id user)
               else if decide (k = "operation") then VStr operation
               else VNone
           end.
Proof.
  intros token. split; [| split].
  - intros Hge. subst token. rewrite loads_generate_token. simpl.
    by destruct (Z.ltb_spec (now0 + ttl) now0); [lia |].
  - intros Hneg user' operation' pw db.
    apply validate_token_not_loaded with (e := SignatureExpired).
    subst token. rewrite loads_generate_token. simpl.
    by destruct (Z.ltb_spec (now0 + ttl) now0); [| lia].
  - intros k. subst token.
    unfold generate_token, dumps, dict_update, dict_get. simpl.
    destruct (kwargs !! k) as [v |] eqn:Hk.
    + by rewrite (lookup_union_Some_l _ _ _ _ Hk).
    + rewrite lookup_union_r by done.
      destruct (decide (k = "id")) as [-> | Hid]; [by rewrite lookup_insert_eq |].
      rewrite lookup_insert_ne by done.
      destruct (decide (k = "operation")) as [-> | Hop];
        [by rewrite lookup_singleton_eq |].
      by rewrite lookup_singleton_ne.
Qed.

(** *** Redirects *)

Lemma redirect_back_loop_safe request targets default_url t :
  redirect_back_loop request targets default_url = Redirect t →
  t = default_url
  ∨ (Some t ∈ targets ∧ t ≠ EmptyString ∧ is_safe_url request t = true).
Proof.
  induction targets as [| target rest IH]; simpl.
  - intros [= <-]. by left.
  - assert (Hrest : redirect_back_loop request rest default_url = Redirect t →
                    t = default_url
                    ∨ (Some t ∈ target :: rest ∧ t ≠ EmptyString
                       ∧ is_safe_url request t = true)).
    { intros Hr. destruct (IH Hr) as [-> | (Hin & Hne & Hs)]; [by left |].
      right. split; [by apply list_elem_of_further | done]. }
    destruct target as [t' |]; simpl; [| done].
    destruct (String.eqb_spec t' EmptyString) as [-> | Hne]; simpl; [done |].
    destruct (is_safe_url request t') eqn:Hs; [| done].
    intros [= <-]. right. split; [apply list_elem_of_here | done].
Qed.

(** X9: [redirect_back] is no open redirect: the location it answers with
    is the fallback [url_for(default)], or it is the 'next' parameter or
    the referrer, non-empty and accepted by [is_safe_url]. *)
Theorem redirect_back_is_safe request default kwargs t :
  redirect_back request default kwargs = Redirect t →
  t = url_for (from_option id "main.index" default) kwargs
  ∨ ((args_get (args request) "next" = Some t ∨ referrer request = Some t)
     ∧ t ≠ EmptyString
     ∧ is_safe_url request t = true).
Proof.
  intros Hr. apply redirect_back_loop_safe in Hr as [-> | (Hin & Hne & Hs)];
    [by left | right].
  split; [| done].
  apply elem_of_cons in Hin as [Hin | Hin]; [by left |].
  apply elem_of_cons in Hin as [Hin | Hin]; [by right |].
  by apply elem_of_nil in Hin.
Qed.

(** *** Flashed form errors *)

Lemma flash_field_errors_app label errors flashes :
  flash_field_errors label errors flashes
  = flashes
    ++ ((fun error =>
           ("message", "Error in the " +:+ label +:+ " field - " +:+ error))
          <$> errors).
Proof.
  revert flashes. induction errors as [| error rest IH]; intros flashes; simpl.
  - by rewrite app_nil_r.
  - rewrite IH. unfold flash. by rewrite <- app_assoc.
Qed.

Lemma flash_errors_items_app form items flashes :
  flash_errors_items form items flashes
  = flashes
    ++ flat_map (fun item =>
                   (fun error =>
                      ("message",
                       "Error in the " +:+ label_text form (fst item)
                         +:+ " field - " +:+ error)) <$> snd item)
                items.
Proof.
  revert flashes. induction items as [| [field errors] rest IH];
    intros flashes; simpl.
  - by rewrite app_nil_r.
  - rewrite IH, flash_field_errors_app. by rewrite <- app_assoc.
Qed.

(** X10: [flash_errors] keeps the messages flashed before and appends one
    message of category 'message' per error of the form, field by field
    and error by error in the order of [form.errors]; a form without
    errors flashes nothing. *)
Theorem flash_errors_appends form flashes :
  flash_errors form flashes
  = flashes
    ++ flat_map (fun item =>
                   (fun error =>
                      ("message",
                       "Error in the " +:+ label_text form (fst item)
                         +:+ " field - " +:+ error)) <$> snd item)
                (form_errors form)
  ∧ length (flash_errors form flashes)
    = (length flashes
       + sum_list ((fun item => length (snd item)) <$> form_errors form))%nat
  ∧ (Forall (fun item => snd item = []) (form_errors form) →
     flash_errors form flashes = flashes).
Proof.
  unfold flash_errors. rewrite flash_errors_items_app.
  split; [done |]. split.
  - rewrite length_app. f_equal.
    induction (form_errors form) as [| [field errors] rest IH]; simpl; [done |].
    by rewrite length_app, length_fmap, IH.
  - intros Hall.
    induction Hall as [| [field errors] rest Hnil _ IH]; simpl.
    + by rewrite app_nil_r.
    + simpl in Hnil. subst errors. simpl. exact IH.
Qed.

(** *** The gates, stacked *)

(** X11: with [confirm_required] around [permission_required], as the
    views stack them, a user who is not confirmed is redirected to
    'main.index' with one warning flashed, whether or not the permission
    is held; a confirmed user without the permission gets 403 and no
    flash; only a confirmed user holding the permission reaches the view
    function. *)
Theorem confirm_then_permission
    (I : Identity User) {A R : Type} (current_user : User)
    (permission_name : string) (func : A → result R) (args : A)
    (flashes : list (string * string)) :
  let view :=
    confirm_required current_user
      (permission_required current_user permission_name func) in
  (confirmed current_user = false →
   ∃ message,
     view args flashes
     = (flashes ++ [("warning", message)],
        Return (inl (Redirect (url_for "main.index" [])))))
  ∧ (confirmed current_user = true →
     can current_user permission_name = false →
     view args flashes = (flashes, Raise (HTTPException 403)))
  ∧ (confirmed current_user = true →
     can current_user permission_name = true →
     view args flashes
     = (flashes, match func args with
                 | Return r => Return (inr r)
                 | Raise e => Raise e
                 end)).
Proof.
  unfold confirm_required, permission_required. cbn zeta.
  split; [| split].
  - intros ->. eexists. reflexivity.
  - by intros -> ->.
  - by intros -> ->.
Qed.

(** *** Resizing *)

(** X12: an image that is not wider than [base_width] is left alone:
    [resize_image] writes no file and returns the file name it was given
    (the root and the extension [splitext] split it into, joined
    again). *)
Theorem resize_image_not_wider image img filename base_width files :
  image_open image = Return img →
  width img ≤ base_width →
  fst (splitext filename) +:+ snd (splitext filename) = filename →
  resize_image image filename base_width files = (files, Return filename).
Proof.
  intros Ho Hw Hj. unfold resize_image.
  destruct (splitext filename) as [root ext]. simpl in Hj. rewrite Ho.
  destruct (Z.leb_spec (width img) base_width); [by rewrite Hj | lia].
Qed.

(** X13: a wider image, for one of the two configured widths and resized
    by PIL, is handed to [img.save] once, under the upload path, as the
    root of the file name, the suffix of the width ('_s' for 400, '_m' for
    800) and the extension; [resize_image] returns that name when the save
    returns and raises what the save raises, leaving the files as the save
    left them.  When the save writes the file, it holds the resized image
    and no other file changes. *)
Theorem resize_image_wider image img img' filename base_width files :
  image_open image = Return img →
  base_width < width img →
  base_width = 400 ∨ base_width = 800 →
  image_resize img base_width
    (scale_height (height img) base_width (width img)) = Return img' →
  let name :=
    fst (splitext filename)
      +:+ ((if decide (base_width = 400) then "_s" else "_m")
             +:+ snd (splitext filename)) in
  let path := path_join (path_join basedir "uploads") name in
  resize_image image filename base_width files
  = match image_save path img' files with
    | (files', Return _) => (files', Return name)
    | (files', Raise e) => (files', Raise e)
    end
  ∧ (image_save path img' files = (<[path := img']> files, Return tt) →
     resize_image image filename base_width files
     = (<[path := img']> files, Return name)
     ∧ fst (resize_image image filename base_width files) !! path = Some img'
     ∧ ∀ other, other ≠ path →
         fst (resize_image image filename base_width files) !! other
         = files !! other).
Proof.
  intros Ho Hw Hb Hr name path.
  assert (Heq : resize_image image filename base_width files
                = match image_save path img' files with
                  | (files', Return _) => (files', Return name)
                  | (files', Raise e) => (files', Raise e)
                  end).
  { unfold resize_image. subst path name.
    destruct (splitext filename) as [root ext]. simpl. rewrite Ho.
    destruct (Z.leb_spec (width img) base_width); [lia |].
    destruct (Z.eqb_spec (width img) 0); [lia |].
    rewrite Hr. by destruct Hb as [-> | ->]. }
  split; [exact Heq |].
  intros Hs. rewrite Heq, Hs. simpl.
  split; [done |]. split; [apply lookup_insert_eq |].
  intros other Hne. by rewrite lookup_insert_ne.
Qed.

(** X14: when [resize_image] raises, either no file was touched or the
    exception is the one [img.save] raised; and for a wider image and a
    [base_width] that is neither 400 nor 800 it raises before any save,
    the files untouched: the width has no suffix in the configuration. *)
Theorem resize_image_raise image filename base_width files :
  (∀ e, snd (resize_image image filename base_width files) = Raise e →
        fst (resize_image image filename base_width files) = files
        ∨ ∃ path img',
            image_save path img' files
            = (fst (resize_image image filename base_width files), Raise e))
  ∧ (∀ img, image_open image = Return img →
            base_width < width img →
            base_width ≠ 400 → base_width ≠ 800 →
            ∃ e, resize_image image filename base_width files
                 = (files, Raise e)
                 ∧ (width img ≠ 0 →
                    (∃ img', image_resize img base_width
                               (scale_height (height img) base_width (width img))
                             = Return img') →
                    e = OtherError "KeyError")).
Proof.
  split.
  - intros e. unfold resize_image.
    destruct (splitext filename) as [root ext].
    destruct (image_open image) as [img |]; [| by left].
    destruct (width img <=? base_width); [by left |].
    destruct (width img =? 0); [by left |].
    destruct (image_resize _ _ _) as [img' |]; [| by left].
    destruct (PHOTOBOOK_PHOTO_SUFFIX !! base_width) as [suffix |]; [| by left].
    destruct (image_save _ img' files) as [files' [[] | e']] eqn:Hs; simpl;
      [done |].
    intros [= <-]. right. eauto.
  - intros img Ho Hw H4 H8. unfold resize_image.
    destruct (splitext filename) as [root ext]. rewrite Ho.
    destruct (Z.leb_spec (width img) base_width); [lia |].
    destruct (Z.eqb_spec (width img) 0); [by eexists |].
    destruct (image_resize _ _ _) as [img' | e] eqn:Hr.
    + assert (Hs : PHOTOBOOK_PHOTO_SUFFIX !! base_width = None).
      { unfold PHOTOBOOK_PHOTO_SUFFIX.
        change (PHOTOBOOK_PHOTO_SIZE !!! "small") with 400.
        change (PHOTOBOOK_PHOTO_SIZE !!! "medium") with 800.
        rewrite lookup_insert_ne by done. by rewrite lookup_singleton_ne. }
      rewrite Hs. by eexists.
    + eexists. split; [done |]. by intros _ [img' ?].
Qed.

(** *** Mail *)

(** X15: each mail helper starts one thread, after those started before,
    with one message for a single recipient and the subject prefixed by
    '[PHOTOBOOK]' without a space.  The confirm and change-email mails go
    to [to] when it is given and not empty and to the user's email
    otherwise; the reset-password mail always goes to the user's email. *)
Theorem mail_helpers_recipient user token to threads :
  let recipient :=
    match to with
    | Some t => if decide (t = EmptyString) then email user else VStr t
    | None => email user
    end in
  (∃ m, send_confirm_email user token to threads = threads ++ [m]
        ∧ subject m = "[PHOTOBOOK]Email Confirm"
        ∧ recipients m = [recipient])
  ∧ (∃ m, send_change_email_email user token to threads = threads ++ [m]
          ∧ subject m = "[PHOTOBOOK]Change Email Confirm"
          ∧ recipients m = [recipient])
  ∧ (∃ m, send_reset_password_email user token threads = threads ++ [m]
          ∧ subject m = "[PHOTOBOOK]Password Reset"
          ∧ recipients m = [email user]).
Proof.
  intros recipient.
  assert (Hto : to_or_email to user = recipient).
  { subst recipient. destruct to as [t |]; [| done]. simpl.
    destruct (String.eqb_spec t EmptyString); by case_decide. }
  unfold send_confirm_email, send_change_email_email,
    send_reset_password_email, send_mail. simpl. rewrite Hto.
  repeat split; eexists; (split; [reflexivity |]); done.
Qed.

(** *** The unread count of the template context *)

Lemma push_all_visible receiver evs db :
  let db' := fst (push_all receiver evs db) in
  notifications db' ++ pending db'
  = (notifications db ++ pending db) ++ (event_record receiver <$> evs).
Proof.
  revert db. induction evs as [| ev rest IH]; intros db; simpl.
  - by rewrite app_nil_r.
  - unfold bind. rewrite push_commits. rewrite IH. simpl.
    by rewrite app_nil_r, <- !app_assoc.
Qed.

Lemma unread_of_app user rows1 rows2 :
  unread_of user (rows1 ++ rows2) = unread_of user rows1 ++ unread_of user rows2.
Proof. apply filter_app. Qed.

Lemma unread_of_events receiver user evs :
  unread_of user (event_record receiver <$> evs)
  = if decide (user_id receiver = user_id user)
    then event_record receiver <$> evs else [].
Proof.
  unfold unread_of.
  induction evs as [| ev rest IH]; [by case_decide |].
  rewrite fmap_cons, filter_cons, IH. simpl.
  destruct (decide (user_id receiver = user_id user)) as [Heq | Hne].
  - by rewrite decide_True.
  - rewrite decide_False; [done | by intros [? _]].
Qed.

(** X16: the unread count a logged-in user sees in the template context
    grows by exactly the number of notification helpers called for that
    user, whatever the session held before. *)
Theorem notification_count_after_push receiver evs db :
  make_template_context (Authenticated receiver)
    (fst (push_all receiver evs db)) !! "notification_count"
  = Some (VInt (Z.of_nat
                  (length (unread_of receiver (notifications db ++ pending db))
                   + length evs))).
Proof.
  unfold make_template_context. simpl. rewrite lookup_singleton_eq.
  rewrite push_all_visible, unread_of_app, unread_of_events.
  rewrite decide_True by done. by rewrite length_app, length_fmap.
Qed.

(** X17: notifications pushed for one receiver do not move the unread
    count of a user with another id; and the anonymous guest has no count
    at all. *)
Theorem notification_count_of_others receiver user evs db guest :
  user_id user ≠ user_id receiver →
  make_template_context (Authenticated user) (fst (push_all receiver evs db))
  = make_template_context (Authenticated user) db
  ∧ make_template_context (Anonymous guest) (fst (push_all receiver evs db))
      !! "notification_count" = Some VNone.
Proof.
  intros Hne. split; [| done].
  unfold make_template_context. simpl.
  rewrite push_all_visible, unread_of_app, unread_of_events.
  rewrite decide_False by done. by rewrite app_nil_r.
Qed.

(** X18: for an image wider than 800, whenever [resize_image] returns a
    name for the small version and a name for the medium version of one
    file, the two names differ from each other and from the name
    [splitext] gives back for the original, so neither version can
    overwrite the other or the original. *)
Theorem resize_image_names_distinct
    image img filename files files' name_s name_m :
  image_open image = Return img →
  800 < width img →
  snd (resize_image image filename 400 files) = Return name_s →
  snd (resize_image image filename 800 files') = Return name_m →
  name_s ≠ name_m
  ∧ name_s ≠ fst (splitext filename) +:+ snd (splitext filename)
  ∧ name_m ≠ fst (splitext filename) +:+ snd (splitext filename).
Proof.
  intros Ho Hw. unfold resize_image.
  destruct (splitext filename) as [root ext]. rewrite Ho. simpl.
  destruct (Z.leb_spec (width img) 400); [lia |].
  destruct (Z.leb_spec (width img) 800); [lia |].
  destruct (Z.eqb_spec (width img) 0); [lia |].
  change (PHOTOBOOK_PHOTO_SUFFIX !! 400) with (Some "_s").
  change (PHOTOBOOK_PHOTO_SUFFIX !! 800) with (Some "_m").
  destruct (image_resize img 400 _) as [small |]; [| done].
  destruct (image_resize img 800 _) as [medium |]; [| done].
  destruct (image_save _ small files) as [f1 [[] |]]; [| done].
  destruct (image_save _ medium files') as [f2 [[] |]]; [| done].
  simpl. intros [= <-] [= <-].
  assert (Hlen : ∀ c1 c2 t, String c1 (String c2 t) ≠ t).
  { intros c1 c2 t Heq. apply (f_equal String.length) in Heq.
    simpl in Heq. lia. }
  split; [| split]; intros Heq; apply (inj (String.app root)) in Heq.
  - discriminate Heq.
  - by apply Hlen in Heq.
  - by apply Hlen in Heq.
Qed.

End MoreProperties.

(** ** The further properties at concrete inputs *)

Section MoreExamples.
Import Example Fixture.
#[local] Existing Instance env.
#[local] Existing Instance runtime.

Lemma validate_token_forged_witness :
  let token :=
    Signed (mkHeader 1000 1060) {["id" := VInt 1; "operation" := VStr "confirm"]}
           "forged" in
  (∀ header payload signature,
     token = Signed header payload signature →
     signature ≠ sign SECRET_KEY header payload)
  ∧ validate_token 1000 alice token Operations.CONFIRM None db0
    = (db0, Return false).
Proof.
  intros token.
  assert (Hsig : ∀ header payload signature,
             token = Signed header payload signature →
             signature ≠ sign SECRET_KEY header payload).
  { intros header payload signature [= <- <- <-]. vm_compute. discriminate. }
  split; [exact Hsig |].
  exact (validate_token_forged 1000 alice token Operations.CONFIRM None db0 Hsig).
Defined.

Lemma validate_token_unknown_operation_witness :
  validate_token 1000 alice
    (generate_token 1000 alice "delete-account" (Some 60) ∅)
    "delete-account" None db0
  = (db0, Return false).
Proof.
  apply validate_token_unknown_operation; discriminate.
Defined.

Lemma validate_token_confirm_replay_witness :
  let header := mkHeader 1000 1060 in
  let payload : gmap string value :=
    dict_update (<["id" := VInt 1]> {["operation" := VStr "confirm"]}) ∅ in
  let token := Signed header payload (sign SECRET_KEY header payload) in
  let db1 := commit (update_user db0 (set_confirmed alice true)) in
  validate_token 1000 alice token Operations.CONFIRM None db0
  = (db1, Return true)
  ∧ 1050 ≤ exp header
  ∧ validate_token 1050 (set_confirmed alice true) token
      Operations.CONFIRM None db1
    = (commit db1, Return true).
Proof.
  intros header payload token db1.
  assert (Hv : validate_token 1000 alice token Operations.CONFIRM None db0
               = (db1, Return true)) by (vm_compute; reflexivity).
  assert (Hle : 1050 ≤ exp header) by (simpl; lia).
  split; [exact Hv |]. split; [exact Hle |].
  exact (proj1 (validate_token_confirm_replay 1000 alice header payload
                  (sign SECRET_KEY header payload) None db0 db1 Hv
                  1050 None Hle)).
Defined.

Lemma validate_token_change_email_replay_witness :
  let e := VStr "new@example.com" in
  let token :=
    generate_token 1000 alice Operations.CHANGE_EMAIL (Some 60)
      {["new_email" := e]} in
  let alice1 := set_email alice e in
  let db1 := commit (update_user db0 alice1) in
  let db2 := commit (update_user db1 (set_email alice1 (VStr "other@example.com"))) in
  validate_token 1000 alice token Operations.CHANGE_EMAIL None db0
  = (db1, Return true)
  ∧ email_taken db1 e
  ∧ validate_token 1001 alice1 token Operations.CHANGE_EMAIL None db1
    = (db1, Return false)
  ∧ loads (Serializer SECRET_KEY None) 1002 token = Return (token_payload token)
  ∧ ¬ email_taken db2 e
  ∧ validate_token 1002 (set_email alice1 (VStr "other@example.com")) token
      Operations.CHANGE_EMAIL None db2
    = (commit (update_user db2 alice1), Return true).
Proof.
  intros e token alice1 db1 db2.
  assert (Hv : validate_token 1000 alice token Operations.CHANGE_EMAIL None db0
               = (db1, Return true)) by (vm_compute; reflexivity).
  pose proof (validate_token_change_email_replay 1000 alice token None db0 db1 Hv)
    as (_ & Htaken & Hrefused & Hagain).
  assert (Hl : loads (Serializer SECRET_KEY None) 1002 token
               = Return (token_payload token)) by (vm_compute; reflexivity).
  assert (Hfree : ¬ email_taken db2 e).
  { intros (i & other & Hi & He). unfold db2, db1 in Hi. simpl in Hi.
    rewrite insert_insert_eq in Hi.
    apply lookup_insert_Some in Hi as [[_ <-] | [_ Hi]]; [discriminate He |].
    apply lookup_insert_Some in Hi as [[_ <-] | [_ Hi]]; [discriminate He |].
    apply lookup_singleton_Some in Hi as [_ <-]. discriminate He. }
  split; [exact Hv |]. split; [exact Htaken |].
  split; [exact (Hrefused 1001 alice1 None db1 Htaken) |].
  split; [exact Hl |]. split; [exact Hfree |].
  exact (Hagain 1002 (set_email alice1 (VStr "other@example.com")) None db2
           Hl eq_refl Hfree).
Defined.

Lemma validate_token_reset_replay_witness :
  let header := mkHeader 1000 1060 in
  let payload : gmap string value :=
    dict_update (<["id" := VInt 1]> {["operation" := VStr "reset-password"]}) ∅ in
  let token := Signed header payload (sign SECRET_KEY header payload) in
  let db1 := commit (update_user db0 (set_password_hash alice "hash$one")) in
  validate_token 1000 alice token Operations.RESET_PASSWORD (Some "one") db0
  = (db1, Return true)
  ∧ ∃ h1, generate_password_hash (Some "one") = Return h1
    ∧ users db1 !! user_id alice = Some (set_password_hash alice h1)
    ∧ ∀ now2 new_password2 h2,
        now2 ≤ exp header →
        generate_password_hash new_password2 = Return h2 →
        validate_token now2 (set_password_hash alice h1) token
          Operations.RESET_PASSWORD new_password2 db1
        = (commit (update_user db1 (set_password_hash alice h2)), Return true).
Proof.
  intros header payload token db1.
  assert (Hv : validate_token 1000 alice token Operations.RESET_PASSWORD
                 (Some "one") db0 = (db1, Return true))
    by (vm_compute; reflexivity).
  split; [exact Hv |].
  exact (validate_token_reset_replay 1000 alice header payload
           (sign SECRET_KEY header payload) (Some "one") db0 db1 Hv).
Defined.

Lemma validate_token_frame_witness :
  let token := generate_token 1000 alice Operations.CONFIRM (Some 60) ∅ in
  let db1 := commit (update_user db0 (set_confirmed alice true)) in
  validate_token 1000 alice token Operations.CONFIRM None db0
  = (db1, Return true)
  ∧ users db1 !! 2 = users db0 !! 2.
Proof.
  intros token db1.
  assert (Hv : validate_token 1000 alice token Operations.CONFIRM None db0
               = (db1, Return true)) by (vm_compute; reflexivity).
  split; [exact Hv |].
  exact (proj1 (validate_token_frame 1000 alice token Operations.CONFIRM None
                  db0 db1 (Return true) Hv) 2 ltac:(discriminate)).
Defined.

Lemma db0_keyed_by_id : keyed_by_id db0.
Proof.
  intros i u Hl. unfold db0 in Hl. simpl in Hl.
  apply lookup_insert_Some in Hl as [[<- <-] | [_ Hl]]; [done |].
  by apply lookup_singleton_Some in Hl as [<- <-].
Defined.

Lemma db0_emails_unique : emails_unique db0.
Proof.
  intros i j u v Hi Hj He. unfold db0 in Hi, Hj. simpl in Hi, Hj.
  apply lookup_insert_Some in Hi as [[<- <-] | [_ Hi]];
    apply lookup_insert_Some in Hj as [[<- <-] | [_ Hj]]; try done.
  - by apply lookup_singleton_Some in Hj as [<- <-].
  - by apply lookup_singleton_Some in Hi as [<- <-].
  - apply lookup_singleton_Some in Hi as [<- _].
    by apply lookup_singleton_Some in Hj as [<- _].
Defined.

Lemma validate_token_keeps_directory_witness :
  let token :=
    generate_token 1000 alice Operations.CHANGE_EMAIL (Some 60)
      {["new_email" := VStr "new@example.com"]} in
  let db1 := commit (update_user db0 (set_email alice (VStr "new@example.com"))) in
  users db0 !! user_id alice = Some alice
  ∧ keyed_by_id db0
  ∧ emails_unique db0
  ∧ validate_token 1000 alice token Operations.CHANGE_EMAIL None db0
    = (db1, Return true)
  ∧ keyed_by_id db1 ∧ emails_unique db1.
Proof.
  intros token db1.
  assert (Hin : users db0 !! user_id alice = Some alice) by reflexivity.
  assert (Hv : validate_token 1000 alice token Operations.CHANGE_EMAIL None db0
               = (db1, Return true)) by (vm_compute; reflexivity).
  split; [exact Hin |]. split; [exact db0_keyed_by_id |].
  split; [exact db0_emails_unique |]. split; [exact Hv |].
  exact (validate_token_keeps_directory 1000 alice token Operations.CHANGE_EMAIL
           None db0 db1 (Return true) Hin db0_keyed_by_id db0_emails_unique Hv).
Defined.

Lemma generate_token_round_trip_witness :
  let token := generate_token 1000 alice Operations.CONFIRM (Some 0) ∅ in
  0 ≤ 0
  ∧ loads (Serializer SECRET_KEY None) 1000 token = Return (token_payload token).
Proof.
  intros token. assert (Hge : 0 ≤ 0) by lia. split; [exact Hge |].
  exact (proj1 (generate_token_round_trip 1000 alice Operations.CONFIRM 0 ∅) Hge).
Defined.

Lemma redirect_back_is_safe_witness :
  let request :=
    mkRequest "http://photo.example/"
              [("next", "http://evil.example/x")] (Some "user/bob") in
  redirect_back request None [] = Redirect "user/bob"
  ∧ ("user/bob" = url_for "main.index" []
     ∨ ((args_get (args request) "next" = Some "user/bob"
         ∨ referrer request = Some "user/bob")
        ∧ "user/bob" ≠ EmptyString
        ∧ is_safe_url request "user/bob" = true)).
Proof.
  intros request.
  assert (Hr : redirect_back request None [] = Redirect "user/bob")
    by (vm_compute; reflexivity).
  split; [exact Hr |].
  exact (redirect_back_is_safe request None [] "user/bob" Hr).
Defined.

Lemma flash_errors_appends_witness :
  Forall (fun item : string * list string => snd item = [])
         [("email", []); ("password", [])]
  ∧ flash_errors (mkForm [("email", []); ("password", [])] (fun f => f))
      [("info", "Welcome")]
    = [("info", "Welcome")].
Proof.
  assert (Hall : Forall (fun item : string * list string => snd item = [])
                        [("email", []); ("password", [])])
    by (repeat constructor).
  split; [exact Hall |].
  exact (proj2 (proj2 (flash_errors_appends
                         (mkForm [("email", []); ("password", [])] (fun f => f))
                         [("info", "Welcome")])) Hall).
Defined.

Lemma confirm_then_permission_witness :
  confirmed bob = true
  ∧ @can User user_identity bob "ADMINISTER" = false
  ∧ confirm_required bob
      (@permission_required User user_identity unit string bob "ADMINISTER"
         (fun _ : unit => Return "page"))
      tt []
    = ([], Raise (HTTPException 403)).
Proof.
  split; [reflexivity |]. split; [reflexivity |].
  exact (proj1 (proj2 (confirm_then_permission user_identity bob "ADMINISTER"
                         (fun _ : unit => Return "page") tt []))
           eq_refl eq_refl).
Defined.

Lemma resize_image_not_wider_witness :
  image_open "small.jpg" = Return (mkImage 320 240)
  ∧ 320 ≤ 400
  ∧ fst (splitext "cat.jpg") +:+ snd (splitext "cat.jpg") = "cat.jpg"
  ∧ resize_image "small.jpg" "cat.jpg" 400 ∅ = (∅, Return "cat.jpg").
Proof.
  assert (Hw : 320 ≤ 400) by lia.
  split; [reflexivity |]. split; [exact Hw |]. split; [reflexivity |].
  exact (resize_image_not_wider "small.jpg" (mkImage 320 240) "cat.jpg" 400 ∅
           eq_refl Hw eq_refl).
Defined.

Lemma resize_image_wider_witness :
  let path := "/srv/photobook/uploads/cat_s.jpg" in
  image_open "wide.jpg" = Return (mkImage 1600 1200)
  ∧ 400 < 1600
  ∧ image_resize (mkImage 1600 1200) 400 (scale_height 1200 400 1600)
    = Return (mkImage 400 300)
  ∧ image_save path (mkImage 400 300) ∅
    = (<[path := mkImage 400 300]> ∅, Return tt)
  ∧ resize_image "wide.jpg" "cat.jpg" 400 ∅
    = (<[path := mkImage 400 300]> ∅, Return "cat_s.jpg").
Proof.
  intros path.
  assert (Hw : 400 < 1600) by lia.
  assert (Hs : image_save path (mkImage 400 300) ∅
               = (<[path := mkImage 400 300]> ∅, Return tt))
    by (vm_compute; reflexivity).
  split; [reflexivity |]. split; [exact Hw |]. split; [reflexivity |].
  split; [exact Hs |].
  exact (proj1 (proj2 (resize_image_wider "wide.jpg" (mkImage 1600 1200)
                         (mkImage 400 300) "cat.jpg" 400 ∅
                         eq_refl Hw (or_introl eq_refl) eq_refl) Hs)).
Defined.

Lemma resize_image_raise_witness :
  image_open "wide.jpg" = Return (mkImage 1600 1200)
  ∧ 600 < 1600
  ∧ ∃ e, resize_image "wide.jpg" "cat.jpg" 600 ∅ = (∅, Raise e)
         ∧ (1600 ≠ 0 →
            (∃ img', image_resize (mkImage 1600 1200) 600
                       (scale_height 1200 600 1600) = Return img') →
            e = OtherError "KeyError").
Proof.
  assert (Hw : 600 < 1600) by lia.
  split; [reflexivity |]. split; [exact Hw |].
  exact (proj2 (resize_image_raise "wide.jpg" "cat.jpg" 600 ∅)
           (mkImage 1600 1200) eq_refl Hw
           ltac:(discriminate) ltac:(discriminate)).
Defined.

Lemma notification_count_of_others_witness :
  user_id bob ≠ user_id alice
  ∧ make_template_context (Authenticated bob)
      (fst (push_all alice [Followed bob; Commented 7 None] db0))
    = make_template_context (Authenticated bob) db0.
Proof.
  assert (Hne : user_id bob ≠ user_id alice) by discriminate.
  split; [exact Hne |].
  exact (proj1 (notification_count_of_others alice bob
                  [Followed bob; Commented 7 None] db0 mkGuest Hne)).
Defined.

Lemma resize_image_names_distinct_witness :
  image_open "wide.jpg" = Return (mkImage 1600 1200)
  ∧ 800 < 1600
  ∧ snd (resize_image "wide.jpg" "cat.jpg" 400 ∅) = Return "cat_s.jpg"
  ∧ snd (resize_image "wide.jpg" "cat.jpg" 800 ∅) = Return "cat_m.jpg"
  ∧ "cat_s.jpg" ≠ "cat_m.jpg"
  ∧ "cat_s.jpg" ≠ fst (splitext "cat.jpg") +:+ snd (splitext "cat.jpg")
  ∧ "cat_m.jpg" ≠ fst (splitext "cat.jpg") +:+ snd (splitext "cat.jpg").
Proof.
  assert (Hw : 800 < 1600) by lia.
  assert (Hs : snd (resize_image "wide.jpg" "cat.jpg" 400 ∅) = Return "cat_s.jpg")
    by (vm_compute; reflexivity).
  assert (Hm : snd (resize_image "wide.jpg" "cat.jpg" 800 ∅) = Return "cat_m.jpg")
    by (vm_compute; reflexivity).
  split; [reflexivity |]. split; [exact Hw |]. split; [exact Hs |].
  split; [exact Hm |].
  exact (resize_image_names_distinct "wide.jpg" (mkImage 1600 1200) "cat.jpg"
           ∅ ∅ "cat_s.jpg" "cat_m.jpg" eq_refl Hw Hs Hm).
Defined.

Example resize_image_save_raises :
  resize_image "wide.jpg" "cat" 400 ∅ = (∅, Raise (OtherError "ValueError")).
Proof. vm_compute. reflexivity. Qed.

End MoreExamples.
